(** * plaso/output/rawpy.py: the native ("raw") Python output module

    A shallow embedding of [NativePythonEventFormattingHelper.GetFieldValues]
    and [NativePythonOutputModule.WriteFieldValues], together with the Python
    builtins they rely on ([sorted] on tuples, [bytes.decode('utf-8',
    'replace')], [str.split], [str.join], [str.format]).

    Python [str] is a sequence of code points, [bytes] a sequence of bytes,
    a [dict] with [str] keys a finite map.  Exceptions are the [Raise] case
    of [result]; the log written through [logger.warning] and the calls made
    to the field formatting helper are recorded in a trace. *)

From Stdlib Require Import ZArith NArith Lia.
From Stdlib Require Import Strings.String Strings.Ascii Strings.Byte.
From Stdlib Require Import DecimalString.
From stdpp Require Import base option list sorting gmap.



(** ** Python text *)

(** A [str] is a list of Unicode code points. *)
Abbreviation str := (list N).

(** Text of a literal of the source (all of them are ASCII). *)
Definition u (s : string) : str :=
  N_of_ascii <$> list_ascii_of_string s.
Opaque u.

(** [a < b] on [str]: lexicographic on code points. *)
Fixpoint str_ltb (a b : str) : bool :=
  match a, b with
  | _, [] => false
  | [], _ :: _ => true
  | x :: a', y :: b' =>
      if N.ltb x y then true
      else if N.eqb x y then str_ltb a' b' else false
  end.

(** [a < b] on [bytes]: lexicographic on byte values. *)
Definition bytes_ltb (a b : list byte) : bool :=
  str_ltb (Byte.to_N <$> a) (Byte.to_N <$> b).

(** [sep.join(l)] *)
Fixpoint join (sep : str) (l : list str) : str :=
  match l with
  | [] => []
  | [x] => x
  | x :: l' => x ++ sep ++ join sep l'
  end.

(** [s.split(sep)] for a separator of one character: never empty. *)
Fixpoint split (sep : N) (s : str) : list str :=
  match s with
  | [] => [[]]
  | c :: s' =>
      if N.eqb c sep then [] :: split sep s'
      else match split sep s' with
           | [] => [[c]]
           | w :: ws => (c :: w) :: ws
           end
  end.

(** The line feed. *)
Definition LF : N := 10%N.

(** The decimal numeral of an [int]. *)
Definition str_of_int (z : Z) : str :=
  u (NilZero.string_of_int (Z.to_int z)).

(** ** Exceptions *)

Inductive exn :=
| TypeError
| ValueError
| KeyError
| AttributeError
| HostError.

Inductive result (A : Type) :=
| OK (a : A)
| Raise (e : exn).
Arguments OK {A} a.
Arguments Raise {A} e.

#[global] Instance result_ret : MRet result := @OK.
#[global] Instance result_bind : MBind result := λ A B f r,
  match r with
  | OK a => f a
  | Raise e => Raise e
  end.

(** A list comprehension whose element expression can raise. *)
Fixpoint rmap {A B} (f : A → result B) (l : list A) : result (list B) :=
  match l with
  | [] => OK []
  | x :: l' => y ← f x; ys ← rmap f l'; OK (y :: ys)
  end.

(** ** UTF-8 *)

Module Utf8.

(** U+FFFD, the replacement character. *)
Definition REPLACEMENT : N := 0xFFFD%N.

Definition is_continuation (b : N) : bool :=
  (0x80 <=? b)%N && (b <=? 0xBF)%N.

(** [bytes.decode('utf-8', 'replace')] on byte values: every maximal
    ill-formed prefix (an invalid start byte, or a start byte with the
    continuation bytes that are valid after it) becomes one U+FFFD. *)
Fixpoint decode_replace (s : list N) : str :=
  match s with
  | [] => []
  | b0 :: r =>
      if (b0 <? 0x80)%N then b0 :: decode_replace r
      else if (b0 <? 0xC2)%N then REPLACEMENT :: decode_replace r
      else if (b0 <? 0xE0)%N then
        match r with
        | [] => [REPLACEMENT]
        | b1 :: r1 =>
            if is_continuation b1
            then ((b0 - 0xC0) * 64 + (b1 - 0x80))%N :: decode_replace r1
            else REPLACEMENT :: decode_replace r
        end
      else if (b0 <? 0xF0)%N then
        match r with
        | [] => [REPLACEMENT]
        | b1 :: r1 =>
            if negb (is_continuation b1)
               || (if (b1 <? 0xA0)%N then (b0 =? 0xE0)%N else (b0 =? 0xED)%N)
            then REPLACEMENT :: decode_replace r
            else
              match r1 with
              | [] => [REPLACEMENT]
              | b2 :: r2 =>
                  if is_continuation b2
                  then ((b0 - 0xE0) * 4096 + (b1 - 0x80) * 64 + (b2 - 0x80))%N
                         :: decode_replace r2
                  else REPLACEMENT :: decode_replace r1
              end
        end
      else if (b0 <? 0xF5)%N then
        match r with
        | [] => [REPLACEMENT]
        | b1 :: r1 =>
            if negb (is_continuation b1)
               || (if (b1 <? 0x90)%N then (b0 =? 0xF0)%N else (b0 =? 0xF4)%N)
            then REPLACEMENT :: decode_replace r
            else
              match r1 with
              | [] => [REPLACEMENT]
              | b2 :: r2 =>
                  if negb (is_continuation b2)
                  then REPLACEMENT :: decode_replace r1
                  else
                    match r2 with
                    | [] => [REPLACEMENT]
                    | b3 :: r3 =>
                        if is_continuation b3
                        then ((b0 - 0xF0) * 262144 + (b1 - 0x80) * 4096
                              + (b2 - 0x80) * 64 + (b3 - 0x80))%N
                               :: decode_replace r3
                        else REPLACEMENT :: decode_replace r2
                    end
              end
        end
      else REPLACEMENT :: decode_replace r
  end.

(** [b.decode('utf-8', 'replace')] *)
Definition decode (b : list byte) : str :=
  decode_replace (Byte.to_N <$> b).

(** A Unicode scalar value: a code point that is not a surrogate. *)
Definition is_scalar (c : N) : bool :=
  ((c <? 0xD800) || (0xDFFF <? c) && (c <? 0x110000))%N.

(** The UTF-8 encoding of one scalar value, as byte values. *)
Definition encode_char (c : N) : list N :=
  if (c <? 0x80)%N then [c]
  else if (c <? 0x800)%N then [0xC0 + c / 64; 0x80 + c mod 64]%N
  else if (c <? 0x10000)%N then
    [0xE0 + c / 4096; 0x80 + (c / 64) mod 64; 0x80 + c mod 64]%N
  else
    [0xF0 + c / 262144; 0x80 + (c / 4096) mod 64;
     0x80 + (c / 64) mod 64; 0x80 + c mod 64]%N.

(** The byte 255 stands in for a value that is out of range; [encode_char]
    of a scalar value never reaches it. *)
Definition byte_of_N (n : N) : byte :=
  default xff (Byte.of_N n).

(** [s.encode('utf-8')] of a text of scalar values. *)
Definition encode (s : str) : list byte :=
  byte_of_N <$> (s ≫= encode_char).

End Utf8.

(** ** Date and time strings *)

Module Dfdatetime.

(** [str(z)] padded with zeros on the left to [width] digits. *)
Definition zero_padded (width : nat) (z : Z) : str :=
  let digits := str_of_int z in
  replicate (width - length digits) 48%N ++ digits.

(** Year, month and day of a number of days since 1970-01-01 in the
    proleptic Gregorian calendar. *)
Definition date_of_days (days : Z) : Z * Z * Z :=
  let z := (days + 719468)%Z in
  let era := (z / 146097)%Z in
  let doe := (z - era * 146097)%Z in
  let yoe := ((doe - doe / 1460 + doe / 36524 - doe / 146096) / 365)%Z in
  let doy := (doe - (365 * yoe + yoe / 4 - yoe / 100))%Z in
  let mp := ((5 * doy + 2) / 153)%Z in
  let day := (doy - (153 * mp + 2) / 5 + 1)%Z in
  let month := (if mp <? 10 then mp + 3 else mp - 9)%Z in
  let year := (yoe + era * 400 + (if month <=? 2 then 1 else 0))%Z in
  (year, month, day).

(** Modelled from the spec: dfdatetime's
    [PosixTimeInMicroseconds.CopyToDateTimeStringISO8601] is not part of this
    module.  The spec gives the format: an ISO-8601 date and time with
    microsecond precision, UTC-normalized, derived from a POSIX-epoch
    microsecond timestamp.  A timestamp outside the years 1 to 9999 cannot be
    materialized. *)
Definition CopyToDateTimeStringISO8601 (timestamp : Z) : result str :=
  let seconds := (timestamp / 1000000)%Z in
  let microseconds := (timestamp mod 1000000)%Z in
  let days := (seconds / 86400)%Z in
  let time := (seconds mod 86400)%Z in
  let '(year, month, day) := date_of_days days in
  if ((1 <=? year) && (year <=? 9999))%Z then
    OK (zero_padded 4 year ++ u "-" ++ zero_padded 2 month ++ u "-"
        ++ zero_padded 2 day ++ u "T" ++ zero_padded 2 (time / 3600)
        ++ u ":" ++ zero_padded 2 (time mod 3600 / 60)
        ++ u ":" ++ zero_padded 2 (time mod 60)
        ++ u "." ++ zero_padded 6 microseconds ++ u "+00:00")
  else Raise HostError.

End Dfdatetime.

(** ** Attribute values *)

(** The host objects an attribute can hold; their classes live outside this
    module (acstore, dfdatetime, dfvfs) and are opaque to it.  An identifier
    has no [__eq__] of its own, so two identifiers are equal when they are
    the same object: [object_id] tells the objects apart, [identifier_key] is
    what [CopyToString] prints. *)
Record AttributeContainerIdentifier := { object_id : N; identifier_key : N }.
Record DateTimeValues := { normalized_timestamp : Z }.
Record PathSpec := { comparable : str }.

#[global] Instance AttributeContainerIdentifier_eq_dec :
  EqDecision AttributeContainerIdentifier.
Proof. solve_decision. Defined.
#[global] Instance DateTimeValues_eq_dec : EqDecision DateTimeValues.
Proof. solve_decision. Defined.
#[global] Instance PathSpec_eq_dec : EqDecision PathSpec.
Proof. solve_decision. Defined.

#[global] Instance byte_eq_dec : EqDecision byte := Byte.byte_eq_dec.

(** The dynamic type of an attribute value. *)
#[warnings="-register-all"]
Inductive value :=
| VStr (s : str)
| VInt (z : Z)
| VBytes (b : list byte)
| VList (l : list value)
| VIdentifier (i : AttributeContainerIdentifier)
| VDateTime (d : DateTimeValues)
| VPathSpec (p : PathSpec).

(** [a == b]; values of different types are unequal, identifiers are equal
    when they are the same object. *)
Fixpoint py_eq (a b : value) : bool :=
  match a, b with
  | VStr s, VStr t => bool_decide (s = t)
  | VInt x, VInt y => bool_decide (x = y)
  | VBytes x, VBytes y => bool_decide (x = y)
  | VList l, VList m =>
      (fix all2 (l m : list value) : bool :=
         match l, m with
         | [], [] => true
         | x :: l', y :: m' => py_eq x y && all2 l' m'
         | _, _ => false
         end) l m
  | VIdentifier i, VIdentifier j => bool_decide (object_id i = object_id j)
  | VDateTime d, VDateTime e => bool_decide (d = e)
  | VPathSpec p, VPathSpec q => bool_decide (p = q)
  | _, _ => false
  end.

(** [a < b].  [str], [int], [bytes] order among themselves, lists order
    lexicographically, date and time values by their normalized timestamp; a
    date and time value against a value of another type raises [ValueError]
    (the comparison methods of dfdatetime do, on either side), every other
    pair of types has no ordering and raises [TypeError]. *)
Fixpoint py_lt (a b : value) : result bool :=
  match a, b with
  | VStr s, VStr t => OK (str_ltb s t)
  | VInt x, VInt y => OK (x <? y)%Z
  | VBytes x, VBytes y => OK (bytes_ltb x y)
  | VList l, VList m =>
      (fix lex (l m : list value) : result bool :=
         match l, m with
         | _, [] => OK false
         | [], _ :: _ => OK true
         | x :: l', y :: m' => if py_eq x y then lex l' m' else py_lt x y
         end) l m
  | VDateTime d, VDateTime e =>
      OK (normalized_timestamp d <? normalized_timestamp e)%Z
  | VDateTime _, _ | _, VDateTime _ => Raise ValueError
  | _, _ => Raise TypeError
  end.

(** [bool(v)] *)
Definition truthy (v : value) : bool :=
  match v with
  | VStr s => negb (bool_decide (s = []))
  | VInt z => negb (bool_decide (z = 0%Z))
  | VBytes b => negb (bool_decide (b = []))
  | VList l => negb (bool_decide (l = []))
  | VIdentifier _ | VDateTime _ | VPathSpec _ => true
  end.

(** ** [sorted] on a list of [(name, value)] tuples *)

(** [a < b] on tuples: the first components that differ decide. *)
Definition tuple_lt (a b : str * value) : result bool :=
  if bool_decide (a.1 = b.1) then
    if py_eq a.2 b.2 then OK false else py_lt a.2 b.2
  else OK (str_ltb a.1 b.1).

(** [x] goes in front of the first element it is less than, so behind the
    elements it is equal to (the sort is stable). *)
Fixpoint insort (x : str * value) (l : list (str * value))
  : result (list (str * value)) :=
  match l with
  | [] => OK [x]
  | y :: l' =>
      lt ← tuple_lt x y;
      if lt : bool then OK (x :: y :: l')
      else r ← insort x l'; OK (y :: r)
  end.

(** [sorted(l)]: a stable sort that only asks [<]; an exception of a
    comparison ends it. *)
Definition sorted (l : list (str * value)) : result (list (str * value)) :=
  foldl (λ acc x, a ← acc; insort x a) (OK []) l.

(** ** The containers of an event *)

(** An event that has a timestamp: [timestamp] is its POSIX time in
    microseconds.  (An event whose timestamp is [None] is outside this
    model.) *)
Record EventObject := {
  GetIdentifier : AttributeContainerIdentifier;
  timestamp : Z
}.

Record EventData := {
  data_type : str;
  event_data_attributes : list (str * value)
}.

Record EventDataStream := {
  event_data_stream_attributes : list (str * value)
}.

Record EventTag := { labels : list str }.

(** [container.GetAttributes()]: the (name, value) pairs of a container, in
    the order the container yields them. *)
Class AttributeContainer (C : Type) := GetAttributes : C → list (str * value).
#[global] Instance EventData_container : AttributeContainer EventData :=
  event_data_attributes.
#[global] Instance EventDataStream_container :
  AttributeContainer EventDataStream := event_data_stream_attributes.

(** ** Effects of [GetFieldValues] *)

(** What [GetFieldValues] does besides returning: a call of
    [logger.warning] with the three arguments of its format string, and a
    call of [GetFormattedField] for a field name. *)
Inductive effect :=
| Warning (attribute_name data_type attribute_value : str)
| Formatted (field_name : str).

#[global] Instance effect_eq_dec : EqDecision effect.
Proof. solve_decision. Defined.

(** A computation that writes a trace and returns or raises. *)
Record run (A : Type) := Run { trace : list effect; outcome : result A }.
Arguments Run {A} trace outcome.
Arguments trace {A} r.
Arguments outcome {A} r.

#[global] Instance run_ret : MRet run := λ A a, Run [] (OK a).
#[global] Instance run_bind : MBind run := λ A B f m,
  match outcome m with
  | OK a => Run (trace m ++ trace (f a)) (outcome (f a))
  | Raise e => Run (trace m) (Raise e)
  end.

Definition lift {A} (r : result A) : run A := Run [] r.
Definition emit (e : effect) : run unit := Run [e] (OK tt).

(** A [for] loop that updates [s] with every element of [l]. *)
Fixpoint for_each {A S} (body : S → A → run S) (s : S) (l : list A) : run S :=
  match l with
  | [] => mret s
  | x :: l' => s' ← body s x; for_each body s' l'
  end.

(** The double quote. *)
Definition QUOTE : str := [34%N].

(** The text [logger.warning] receives for a bytes value. *)
Definition warning_text (e : effect) : option str :=
  match e with
  | Warning attribute_name data_type attribute_value =>
      Some (u "Found bytes value for attribute " ++ QUOTE ++ attribute_name
            ++ QUOTE ++ u " for data type: " ++ data_type
            ++ u ". Value was converted to UTF-8: " ++ QUOTE
            ++ attribute_value ++ QUOTE)
  | Formatted _ => None
  end.

(** ** [NativePythonEventFormattingHelper.GetFieldValues] *)

(** [isinstance(v, (AttributeContainerIdentifier, DateTimeValues))] *)
Definition is_identifier_or_date_time (v : value) : bool :=
  match v with
  | VIdentifier _ | VDateTime _ => true
  | _ => false
  end.

(** [isinstance(v, list) and v and isinstance(v[0], DateTimeValues)] *)
Definition is_date_time_list (v : value) : bool :=
  match v with
  | VList (VDateTime _ :: _) => true
  | _ => false
  end.

Section GetFieldValues.

(** [identifier.CopyToString()], of acstore. *)
Variable CopyToString : AttributeContainerIdentifier → result str.
(** [PosixTimeInMicroseconds(timestamp=t).CopyToDateTimeStringISO8601()],
    of dfdatetime. *)
Variable CopyToDateTimeStringISO8601 : Z → result str.
(** [DynamicFieldFormattingHelper.GetFormattedField], without the output
    mediator. *)
Variable GetFormattedField :
  str → EventObject → EventData → option EventDataStream →
  option EventTag → str.

(** The body of the loop over the sorted attributes. *)
Definition set_attribute (data_type : str) (field_values : gmap str value)
    (attribute : str * value) : run (gmap str value) :=
  let '(attribute_name, attribute_value) := attribute in
  if is_identifier_or_date_time attribute_value then mret field_values
  else if is_date_time_list attribute_value then mret field_values
  else
    attribute_value ←
      match attribute_value with
      | VBytes b =>
          let decoded := Utf8.decode b in
          _ ← emit (Warning attribute_name data_type decoded);
          mret (VStr decoded)
      | _ => mret attribute_value
      end;
    mret (<[attribute_name := attribute_value]> field_values).

(** [if name not in field_values: field_values[name] =
    GetFormattedField(...)] *)
Definition set_default (field_name : str) (event : EventObject)
    (event_data : EventData) (event_data_stream : option EventDataStream)
    (event_tag : option EventTag) (field_values : gmap str value)
  : run (gmap str value) :=
  match field_values !! field_name with
  | Some _ => mret field_values
  | None =>
      _ ← emit (Formatted field_name);
      mret (<[field_name :=
                VStr (GetFormattedField field_name event event_data
                        event_data_stream event_tag)]> field_values)
  end.

Definition GetFieldValues (event : EventObject) (event_data : EventData)
    (event_data_stream : option EventDataStream)
    (event_tag : option EventTag) : run (gmap str value) :=
  event_identifier_string ← lift (CopyToString (GetIdentifier event));
  date_time_string ← lift (CopyToDateTimeStringISO8601 (timestamp event));
  let field_values : gmap str value :=
    <[u "_timestamp" := VStr date_time_string]>
      (<[u "_event_identifier" := VStr event_identifier_string]> ∅) in
  let event_attributes :=
    GetAttributes event_data ++
    match event_data_stream with
    | Some stream => GetAttributes stream
    | None => []
    end in
  sorted_attributes ← lift (sorted event_attributes);
  field_values ←
    for_each (set_attribute (data_type event_data)) field_values
      sorted_attributes;
  field_values ←
    set_default (u "display_name") event event_data event_data_stream
      event_tag field_values;
  field_values ←
    set_default (u "filename") event event_data event_data_stream
      event_tag field_values;
  field_values ←
    set_default (u "inode") event event_data event_data_stream
      event_tag field_values;
  mret match event_tag with
       | Some tag =>
           <[u "_event_tag_labels" := VList (VStr <$> labels tag)]>
             field_values
       | None => field_values
       end.

End GetFieldValues.

(** ** [NativePythonOutputModule.WriteFieldValues] *)

(** ['{0:s}'.format(v)]: only a [str] takes the [s] format. *)
Definition format_s (v : value) : result str :=
  match v with
  | VStr s => OK s
  | VInt _ => Raise ValueError
  | _ => Raise TypeError
  end.

(** [for x in v]: the elements of a list, the characters of a [str], the
    byte values of a [bytes]. *)
Definition iterate (v : value) : result (list value) :=
  match v with
  | VList l => OK l
  | VStr s => OK ((λ c, VStr [c]) <$> s)
  | VBytes b => OK ((λ c, VInt (Z.of_N (Byte.to_N c))) <$> b)
  | _ => Raise TypeError
  end.

(** [v.comparable] *)
Definition get_comparable (v : value) : result str :=
  match v with
  | VPathSpec p => OK (comparable p)
  | _ => Raise AttributeError
  end.

(** The keys the loop over the fields skips. *)
Definition STRUCTURAL_KEYS : list str :=
  [u "_event_identifier"; u "_event_tag_labels"; u "_timestamp";
   u "path_spec"].

(** ['+-' * 40] *)
Definition SEPARATOR : str := mjoin (replicate 40 (u "+-")).

(** [sys.int_info.default_max_str_digits], the longest [int] that [str]
    converts (CPython 3.11 and the security releases of 3.7 to 3.10). *)
Definition INT_MAX_STR_DIGITS : Z := 4300.

Section WriteFieldValues.

(** [definitions.RESERVED_VARIABLE_NAMES], of plaso.lib. *)
Variable RESERVED_VARIABLE_NAMES : list str.
(** [str(v)] of a value that is neither [str] nor [int]; it can raise, as
    the [str] of a list that holds an [int] of too many digits does. *)
Variable repr : value → result str.

(** ['{0!s}'.format(v)], which is [str(v)].  The [str] of an [int] of more
    than [INT_MAX_STR_DIGITS] decimal digits raises [ValueError]. *)
Definition py_str (v : value) : result str :=
  match v with
  | VStr s => OK s
  | VInt z =>
      if (Z.abs z <? 10 ^ INT_MAX_STR_DIGITS)%Z then OK (str_of_int z)
      else Raise ValueError
  | _ => repr v
  end.

(** ['  {{{0!s}}} {1!s}'.format(field_name, field_value)] *)
Definition field_string (field_name : str) (field_value : value)
  : result str :=
  s ← py_str field_value;
  OK (u "  {" ++ field_name ++ u "} " ++ s).

(** The loop over the sorted fields, from the lines it has so far: the
    reserved and the additional attribute lines.  The line of a field is
    formatted before it is put in its section, and an exception of the
    formatting ends the loop. *)
Fixpoint attribute_lines_from
    (reserved_attributes additional_attributes : list str)
    (items : list (str * value)) : result (list str * list str) :=
  match items with
  | [] => OK (reserved_attributes, additional_attributes)
  | (field_name, field_value) :: items =>
      if bool_decide (field_name ∈ STRUCTURAL_KEYS)
      then attribute_lines_from reserved_attributes additional_attributes
             items
      else
        field_string ← field_string field_name field_value;
        if bool_decide (field_name ∈ RESERVED_VARIABLE_NAMES)
        then attribute_lines_from (reserved_attributes ++ [field_string])
               additional_attributes items
        else attribute_lines_from reserved_attributes
               (additional_attributes ++ [field_string]) items
  end.

Definition attribute_lines (items : list (str * value))
  : result (list str * list str) :=
  attribute_lines_from [] [] items.

(** The path specification section; [pop] drops the last line. *)
Definition pathspec_lines (field_values : gmap str value)
    (lines_of_text : list str) : result (list str) :=
  match field_values !! u "path_spec" with
  | Some path_specification =>
      if truthy path_specification then
        text ← get_comparable path_specification;
        OK (removelast
              (lines_of_text ++ [[]; u "[Pathspec]:"]
               ++ ((λ line, u "  " ++ line) <$> split LF text)))
      else OK lines_of_text
  | None => OK lines_of_text
  end.

(** The tag section. *)
Definition tag_lines (field_values : gmap str value)
    (lines_of_text : list str) : result (list str) :=
  match field_values !! u "_event_tag_labels" with
  | Some event_tag_labels =>
      if truthy event_tag_labels then
        elements ← iterate event_tag_labels;
        quoted ← rmap (λ label, s ← format_s label;
                                OK (u "'" ++ s ++ u "'")) elements;
        let labels := join (u ", ") quoted in
        OK (lines_of_text
            ++ [[]; u "[Tag]:"; u "  {labels} [" ++ labels ++ u "]"])
      else OK lines_of_text
  | None => OK lines_of_text
  end.

(** The lines joined into the output text.  The loop over the fields runs
    first: the timestamp is looked up after it. *)
Definition lines_of_text (field_values : gmap str value)
  : result (list str) :=
  items ← sorted (map_to_list field_values);
  sections ← attribute_lines items;
  let '(reserved_attributes, additional_attributes) :=
    (sections : list str * list str) in
  timestamp_value ←
    match field_values !! u "_timestamp" with
    | Some v => OK v
    | None => Raise KeyError
    end;
  timestamp_string ← format_s timestamp_value;
  let lines :=
    [SEPARATOR; u "[Timestamp]:"; u "  " ++ timestamp_string] in
  lines ← pathspec_lines field_values lines;
  let lines := lines ++ [[]; u "[Reserved attributes]:"] in
  let lines := lines ++ reserved_attributes in
  let lines := lines ++ [[]; u "[Additional attributes]:"] in
  let lines := lines ++ additional_attributes in
  lines ← tag_lines field_values lines;
  OK (lines ++ [[]]).

(** The text handed to [WriteLine]. *)
Definition WriteFieldValues (field_values : gmap str value) : result str :=
  lines ← lines_of_text field_values;
  OK (join [LF] lines).

End WriteFieldValues.

(** * Notions the statements use *)

(** [a] is named no later than [b]. *)
Definition name_le (a b : str * value) : Prop := str_ltb b.1 a.1 = false.
(** [a] is named strictly before [b]. *)
Definition name_lt (a b : str * value) : Prop := str_ltb a.1 b.1 = true.

(** The loop of [sorted], from any accumulator. *)
Definition sorted_from (acc : result (list (str * value)))
    (l : list (str * value)) : result (list (str * value)) :=
  foldl (λ acc x, a ← acc; insort x a) acc l.

(** The attributes called [n]. *)
Definition named (n : str) (l : list (str * value)) : list (str * value) :=
  filter (λ a, a.1 = n) l.

(** What the loop stores for a value: nothing for an identifier, a date and
    time value or a list that starts with one, the decoded text for a bytes
    value, the value itself otherwise. *)
Definition stored (v : value) : option value :=
  if is_identifier_or_date_time v then None
  else if is_date_time_list v then None
  else Some match v with
            | VBytes b => VStr (Utf8.decode b)
            | _ => v
            end.

(** The values the loop skips. *)
Definition is_ignored (v : value) : bool :=
  is_identifier_or_date_time v || is_date_time_list v.

(** The field values after one attribute. *)
Definition write (field_values : gmap str value) (a : str * value)
  : gmap str value :=
  match stored a.2 with
  | Some w => <[a.1 := w]> field_values
  | None => field_values
  end.

(** The warnings one attribute gives rise to. *)
Definition warnings_of (data_type : str) (a : str * value) : list effect :=
  match a.2 with
  | VBytes b => [Warning a.1 data_type (Utf8.decode b)]
  | _ => []
  end.

(** [field_values] after [set_default] for [field_name] when the helper
    answers [x]. *)
Definition with_default (field_name x : str) (fv : gmap str value)
  : gmap str value :=
  match fv !! field_name with
  | Some _ => fv
  | None => <[field_name := VStr x]> fv
  end.

(** The call [set_default] makes to the helper, if any. *)
Definition default_call (field_name : str) (fv : gmap str value)
  : list effect :=
  match fv !! field_name with
  | Some _ => []
  | None => [Formatted field_name]
  end.

(** [field_values] once the labels of the tag are in. *)
Definition with_tag (event_tag : option EventTag) (fv : gmap str value)
  : gmap str value :=
  match event_tag with
  | Some tag => <[u "_event_tag_labels" := VList (VStr <$> labels tag)]> fv
  | None => fv
  end.

(** The first field values. *)
Definition seed (event_identifier_string date_time_string : str)
  : gmap str value :=
  <[u "_timestamp" := VStr date_time_string]>
    (<[u "_event_identifier" := VStr event_identifier_string]> ∅).

(** The attributes of the event data and of its stream. *)
Definition event_attributes (event_data : EventData)
    (event_data_stream : option EventDataStream) : list (str * value) :=
  GetAttributes event_data ++
  match event_data_stream with
  | Some stream => GetAttributes stream
  | None => []
  end.

(** A [str] takes the [s] format. *)
Definition is_str (v : value) : bool :=
  match v with VStr _ => true | _ => false end.

Definition is_path_spec (v : value) : bool :=
  match v with VPathSpec _ => true | _ => false end.

(** A value the tag section can render: a sequence of [str]. *)
Definition is_labels (v : value) : bool :=
  match v with
  | VList l => forallb is_str l
  | VStr _ => true
  | _ => false
  end.

(** [str(v)] returns. *)
Definition has_str (repr : value → result str) (v : value) : bool :=
  match py_str repr v with
  | OK _ => true
  | Raise _ => false
  end.

(** Every field of the two attribute sections has a [str]. *)
Definition renders (repr : value → result str) (fv : gmap str value)
  : bool :=
  forallb (λ a, bool_decide (a.1 ∈ STRUCTURAL_KEYS) || has_str repr a.2)
    (map_to_list fv).

(** The field values [WriteFieldValues] renders without an exception. *)
Definition well_formed (repr : value → result str) (fv : gmap str value)
  : bool :=
  renders repr fv
  && match fv !! u "_timestamp" with
     | Some v => is_str v
     | None => false
     end
  && match fv !! u "path_spec" with
     | Some v => negb (truthy v) || is_path_spec v
     | None => true
     end
  && match fv !! u "_event_tag_labels" with
     | Some v => negb (truthy v) || is_labels v
     | None => true
     end.

(** The fields of the reserved section, and those of the additional. *)
Definition is_reserved (RESERVED_VARIABLE_NAMES : list str)
    (a : str * value) : Prop :=
  (a.1 ∉ STRUCTURAL_KEYS) ∧ (a.1 ∈ RESERVED_VARIABLE_NAMES).
Definition is_additional (RESERVED_VARIABLE_NAMES : list str)
    (a : str * value) : Prop :=
  (a.1 ∉ STRUCTURAL_KEYS) ∧ (a.1 ∉ RESERVED_VARIABLE_NAMES).

#[global] Instance is_reserved_dec R a : Decision (is_reserved R a).
Proof. unfold is_reserved. apply _. Defined.
#[global] Instance is_additional_dec R a : Decision (is_additional R a).
Proof. unfold is_additional. apply _. Defined.

(** The line of a field. *)
Definition line_of (repr : value → result str) (a : str * value)
  : result str :=
  field_string repr a.1 a.2.

(** What a run returned, or [d] when it raised. *)
Definition returned {A} (d : A) (r : run A) : A :=
  match outcome r with
  | OK a => a
  | Raise _ => d
  end.

(** The names [GetFieldValues] sets on its own. *)
Definition OWN_KEYS : list str :=
  [u "_event_identifier"; u "_timestamp"; u "display_name"; u "filename";
   u "inode"; u "_event_tag_labels"].

(** A warning about the attribute [n]. *)
Definition names_attribute (n : str) (e : effect) : Prop :=
  match e with
  | Warning attribute_name _ _ => attribute_name = n
  | Formatted _ => False
  end.

#[global] Instance names_attribute_dec n e : Decision (names_attribute n e).
Proof. destruct e; simpl; apply _. Defined.

(** ** Sample inputs *)

(** An identifier string in the manner of acstore: a name and a number. *)
Definition sample_CopyToString (i : AttributeContainerIdentifier)
  : result str :=
  OK (u "event." ++ str_of_int (Z.of_N (identifier_key i))).

(** A helper that resolves every field to the empty string. *)
Definition no_fallback (field_name : str) (event : EventObject)
    (event_data : EventData) (event_data_stream : option EventDataStream)
    (event_tag : option EventTag) : str := [].

(** A [repr] that does not look at the object. *)
Definition sample_repr (v : value) : result str := OK (u "<object>").

(** An event of 2024-01-01T00:00:00 UTC. *)
Definition sample_event : EventObject :=
  {| GetIdentifier := {| object_id := 0; identifier_key := 1 |};
     timestamp := 1704067200000000 |}.

(** The three well-known fields, which plaso counts among its reserved
    variable names. *)
Definition sample_reserved : list str :=
  [u "display_name"; u "filename"; u "inode"].

(** [GetFieldValues] with the sample collaborators. *)
Definition sample_GetFieldValues :=
  GetFieldValues sample_CopyToString Dfdatetime.CopyToDateTimeStringISO8601
    no_fallback sample_event.

(** A call of [logger.warning]. *)
Definition is_warning (e : effect) : Prop :=
  match e with
  | Warning _ _ _ => True
  | Formatted _ => False
  end.

(** A call of [GetFormattedField]. *)
Definition is_formatted (e : effect) : Prop :=
  match e with
  | Warning _ _ _ => False
  | Formatted _ => True
  end.

#[global] Instance is_warning_dec e : Decision (is_warning e).
Proof. destruct e; simpl; apply _. Defined.
#[global] Instance is_formatted_dec e : Decision (is_formatted e).
Proof. destruct e; simpl; apply _. Defined.

(** The names of the attributes the loop stores. *)
Definition stored_names (attributes : list (str * value)) : list str :=
  (filter (λ a, is_ignored a.2 = false) attributes).*1.

(** The three fields [GetFieldValues] asks the helper for. *)
Definition WELL_KNOWN : list str :=
  [u "display_name"; u "filename"; u "inode"].

(** ['\'{0:s}\''.format(label)] *)
Definition quoted (label : str) : str := u "'" ++ label ++ u "'".

(** A record with a text, a number, a bytes value that is not valid UTF-8
    and a date and time value, a stream with a path specification, and a
    tag. *)
Definition sample_event_data : EventData :=
  {| data_type := u "test:event";
     event_data_attributes :=
       [(u "size", VInt 10);
        (u "comment", VBytes [xe2; x82; xac; xff]);
        (u "written", VDateTime {| normalized_timestamp := 5 |});
        (u "filename", VStr (u "/var/log/syslog"))] |}.

Definition sample_stream : EventDataStream :=
  {| event_data_stream_attributes :=
       [(u "path_spec",
         VPathSpec {| comparable := u "type: OS" ++ [LF] |});
        (u "md5_hash", VStr (u "d41d8cd9"))] |}.

Definition sample_tag : EventTag := {| labels := [u "a"; u "b"] |}.

(** The run of [GetFieldValues] on the sample record. *)
Definition sample_run : run (gmap str value) :=
  sample_GetFieldValues sample_event_data (Some sample_stream)
    (Some sample_tag).

(** The field values of the sample record. *)
Definition sample_field_values : gmap str value := returned ∅ sample_run.

(** What a computation returned, or [d] when it raised. *)
Definition result_or {A} (d : A) (r : result A) : A :=
  match r with
  | OK a => a
  | Raise _ => d
  end.

(** The lines and the text of the sample record. *)
Definition sample_lines : list str :=
  result_or [] (lines_of_text sample_reserved sample_repr sample_field_values).
Definition sample_text : str :=
  result_or []
    (WriteFieldValues sample_reserved sample_repr sample_field_values).

(** * Properties of the builtins *)



(** ** The order of [str] *)

Lemma str_ltb_irrefl a : str_ltb a a = false.
Proof.
  induction a as [|x a IH]; simpl; [done|].
  by rewrite N.ltb_irrefl, N.eqb_refl.
Qed.

Lemma str_ltb_trans a b c :
  str_ltb a b = true → str_ltb b c = true → str_ltb a c = true.
Proof.
  revert b c. induction a as [|x a IH]; intros [|y b] [|z c]; simpl; try done.
  destruct (N.ltb_spec x y), (N.ltb_spec y z), (N.ltb_spec x z);
    try done; try lia.
  - destruct (N.eqb_spec y z); [lia|done].
  - destruct (N.eqb_spec x y); [lia|done].
  - destruct (N.eqb_spec x y), (N.eqb_spec y z), (N.eqb_spec x z);
      try done; try lia.
    apply IH.
Qed.

Lemma str_ltb_total a b :
  str_ltb a b = false → str_ltb b a = false → a = b.
Proof.
  revert b. induction a as [|x a IH]; intros [|y b]; simpl; try done.
  destruct (N.ltb_spec x y), (N.ltb_spec y x); try done; try lia.
  destruct (N.eqb_spec x y), (N.eqb_spec y x); try done; try lia.
  intros ??. f_equal; [done|]. by apply IH.
Qed.

Lemma str_ltb_asym a b : str_ltb a b = true → str_ltb b a = false.
Proof.
  intros Hab. destruct (str_ltb b a) eqn:Hba; [|done].
  by rewrite <-(str_ltb_irrefl a), (str_ltb_trans a b a).
Qed.

#[global] Instance name_le_trans : Transitive name_le.
Proof.
  intros a b c Hab Hbc. unfold name_le in *.
  destruct (str_ltb c.1 a.1) eqn:Hca; [|done].
  destruct (str_ltb a.1 b.1) eqn:Hab'.
  - by rewrite (str_ltb_trans _ _ _ Hca Hab') in Hbc.
  - rewrite (str_ltb_total _ _ Hab' Hab) in Hca. congruence.
Qed.

#[global] Instance name_lt_antisymm : AntiSymm (=) name_lt.
Proof.
  intros a b Hab Hba. unfold name_lt in *.
  apply str_ltb_asym in Hab. congruence.
Qed.

(** ** [result] *)

Lemma bind_OK {A B} (r : result A) (f : A → result B) b :
  r ≫= f = OK b ↔ ∃ a, r = OK a ∧ f a = OK b.
Proof.
  destruct r as [a|e]; simpl; split.
  - eauto.
  - by intros (? & [= <-] & ?).
  - done.
  - by intros (? & ? & ?).
Qed.

Lemma OK_bind {A B} (a : A) (f : A → result B) : OK a ≫= f = f a.
Proof. done. Qed.

(** ** [sorted] *)

Lemma tuple_lt_names a b :
  a.1 ≠ b.1 → tuple_lt a b = OK (str_ltb a.1 b.1).
Proof. intros Hne. unfold tuple_lt. by rewrite bool_decide_eq_false_2. Qed.

Lemma tuple_lt_false_name_le x y : tuple_lt x y = OK false → name_le y x.
Proof.
  unfold tuple_lt, name_le. case_bool_decide as Heq.
  - intros _. rewrite Heq. apply str_ltb_irrefl.
  - by intros [= ->].
Qed.

Lemma tuple_lt_true_name_le x y : tuple_lt x y = OK true → name_le x y.
Proof.
  unfold tuple_lt, name_le. case_bool_decide as Heq.
  - intros _. rewrite Heq. apply str_ltb_irrefl.
  - intros [= Hlt]. by apply str_ltb_asym.
Qed.

(** Where [insort] puts the new element. *)
Lemma insort_split x l l' :
  insort x l = OK l' →
  ∃ pre post, l = pre ++ post ∧ l' = pre ++ x :: post ∧
    Forall (λ y, tuple_lt x y = OK false) pre ∧
    match post with [] => True | y :: _ => tuple_lt x y = OK true end.
Proof.
  revert l'. induction l as [|y l IH]; intros l'; simpl.
  - intros [= <-]. by exists [], [].
  - intros (lt & Hlt & Hl')%bind_OK. destruct lt.
    + injection Hl' as <-. by exists [], (y :: l).
    + apply bind_OK in Hl' as (r & Hr & [= <-]).
      destruct (IH _ Hr) as (pre & post & -> & -> & Hpre & Hpost).
      exists (y :: pre), post. split_and!; [done..| |done].
      by constructor.
Qed.

Lemma insort_Permutation x l l' : insort x l = OK l' → l' ≡ₚ x :: l.
Proof.
  intros (pre & post & -> & -> & _)%insort_split.
  by rewrite Permutation_middle.
Qed.

Lemma insort_name_sorted x l l' :
  StronglySorted name_le l → insort x l = OK l' → StronglySorted name_le l'.
Proof.
  intros Hl (pre & post & -> & -> & Hpre & Hpost)%insort_split.
  apply StronglySorted_app in Hl as (Hpp & Hspre & Hspost).
  apply StronglySorted_app. split_and!; [|done|].
  - intros a b Ha [->|Hb]%elem_of_cons; [|by apply Hpp].
    rewrite Forall_forall in Hpre. by apply tuple_lt_false_name_le, Hpre.
  - apply StronglySorted_cons. split; [|done].
    destruct post as [|y post]; [constructor|].
    apply tuple_lt_true_name_le in Hpost.
    apply StronglySorted_cons in Hspost as [Hy _].
    constructor; [done|].
    eapply Forall_impl; [exact Hy|]. intros z Hz. by etrans.
Qed.

Lemma sorted_from_Raise e l : sorted_from (Raise e) l = Raise e.
Proof. induction l as [|x l IH]; [done|]. apply IH. Qed.

Lemma sorted_from_cons acc x l :
  sorted_from acc (x :: l) = sorted_from (acc ≫= insort x) l.
Proof. done. Qed.

Lemma sorted_from_OK acc l l' :
  sorted_from (OK acc) l = OK l' →
  l' ≡ₚ acc ++ l ∧ (StronglySorted name_le acc → StronglySorted name_le l').
Proof.
  revert acc. induction l as [|x l IH]; intros acc.
  - intros [= <-]. by rewrite app_nil_r.
  - rewrite sorted_from_cons. simpl.
    destruct (insort x acc) as [acc'|e] eqn:Hins;
      [|by rewrite sorted_from_Raise].
    intros [Hperm Hsorted]%IH. split.
    + rewrite Hperm, (insort_Permutation _ _ _ Hins).
      by rewrite <-Permutation_middle.
    + intros Hacc. by eapply Hsorted, insort_name_sorted.
Qed.

Lemma sorted_Permutation l l' : sorted l = OK l' → l' ≡ₚ l.
Proof. by intros [? _]%sorted_from_OK. Qed.

Lemma sorted_name_sorted l l' : sorted l = OK l' → StronglySorted name_le l'.
Proof. intros [_ H]%sorted_from_OK. apply H. constructor. Qed.

(** With names that are pairwise distinct no comparison looks at a value,
    so [sorted] returns. *)
Lemma insort_fresh x l : x.1 ∉ l.*1 → ∃ l', insort x l = OK l'.
Proof.
  induction l as [|y l IH]; simpl; [by eauto|].
  intros [Hy Hl]%not_elem_of_cons.
  rewrite tuple_lt_names by done. simpl.
  destruct (str_ltb x.1 y.1); [by eauto|].
  destruct (IH Hl) as [r ->]. simpl. by eauto.
Qed.

Lemma sorted_from_total acc l :
  NoDup (acc ++ l).*1 → ∃ l', sorted_from (OK acc) l = OK l'.
Proof.
  revert acc. induction l as [|x l IH]; intros acc Hnd; [by eexists|].
  rewrite sorted_from_cons. simpl.
  assert (x.1 ∉ acc.*1) as Hx.
  { rewrite fmap_app, fmap_cons in Hnd.
    apply NoDup_app in Hnd as (_ & Hnd & _).
    intros Hin. apply (Hnd _ Hin). left. }
  destruct (insort_fresh x acc Hx) as [acc' Hacc']. rewrite Hacc'.
  apply IH. apply insort_Permutation in Hacc'.
  rewrite Hacc'. by rewrite <-Permutation_middle in Hnd.
Qed.

Lemma sorted_total l : NoDup l.*1 → ∃ l', sorted l = OK l'.
Proof. apply (sorted_from_total []). Qed.

Lemma name_sorted_strict l :
  NoDup l.*1 → StronglySorted name_le l → StronglySorted name_lt l.
Proof.
  induction 2 as [|a l Hl IH Ha]; [constructor|].
  rewrite fmap_cons in H. apply NoDup_cons in H as [Hin Hnd].
  constructor; [by apply IH|].
  rewrite Forall_forall in Ha |- *. intros b Hb.
  specialize (Ha b Hb). unfold name_le, name_lt in *.
  destruct (str_ltb a.1 b.1) eqn:Hab; [done|].
  destruct Hin. rewrite (str_ltb_total _ _ Hab Ha).
  by apply list_elem_of_fmap_2.
Qed.

Lemma sorted_strict l l' :
  NoDup l.*1 → sorted l = OK l' → StronglySorted name_lt l'.
Proof.
  intros Hnd Hl'. apply name_sorted_strict; [|by eapply sorted_name_sorted].
  by rewrite (sorted_Permutation _ _ Hl').
Qed.

(** The order in which a [dict] yields its items is of no consequence. *)
Lemma sorted_unique l1 l2 r :
  NoDup l1.*1 → l1 ≡ₚ l2 → sorted l1 = OK r → sorted l2 = OK r.
Proof.
  intros Hnd Hperm Hr.
  assert (NoDup l2.*1) as Hnd2 by by rewrite <-Hperm.
  destruct (sorted_total l2 Hnd2) as [r2 Hr2]. rewrite Hr2. f_equal.
  apply (StronglySorted_unique name_lt).
  - by apply (sorted_strict l2).
  - by apply (sorted_strict l1).
  - by rewrite (sorted_Permutation _ _ Hr), (sorted_Permutation _ _ Hr2).
Qed.

Lemma named_name_gt n y l :
  str_ltb n y.1 = true → StronglySorted name_le (y :: l) →
  named n (y :: l) = [].
Proof.
  intros Hlt [Hy _]%StronglySorted_cons.
  apply elem_of_nil_inv. intros z [Heq Hz]%list_elem_of_filter.
  apply elem_of_cons in Hz as [->|Hz].
  - by rewrite Heq, str_ltb_irrefl in Hlt.
  - rewrite Forall_forall in Hy. specialize (Hy z Hz).
    unfold name_le in Hy. rewrite Heq in Hy. congruence.
Qed.

Lemma insort_named_ne n x l l' :
  x.1 ≠ n → insort x l = OK l' → named n l' = named n l.
Proof.
  intros Hne (pre & post & -> & -> & _)%insort_split. unfold named.
  by rewrite !filter_app, filter_cons_False.
Qed.

Lemma insort_named_eq n x l l' :
  x.1 = n → StronglySorted name_le l → insort x l = OK l' →
  insort x (named n l) = OK (named n l').
Proof.
  intros Hx. revert l'. induction l as [|y l IH]; intros l' Hs; simpl.
  - intros [= <-]. unfold named. by rewrite filter_cons_True.
  - intros (lt & Hlt & Hl')%bind_OK.
    destruct (decide (y.1 = n)) as [Hy|Hy].
    + unfold named at 1. rewrite filter_cons_True by done. simpl.
      rewrite Hlt. simpl. destruct lt.
      * injection Hl' as <-. unfold named.
        by rewrite !filter_cons_True.
      * apply bind_OK in Hl' as (r & Hr & [= <-]).
        apply StronglySorted_cons in Hs as [_ Hs].
        fold (named n l). rewrite (IH _ Hs Hr). simpl. unfold named.
        by rewrite (filter_cons_True _ y).
    + rewrite tuple_lt_names in Hlt by congruence. injection Hlt as <-.
      destruct (str_ltb x.1 y.1) eqn:Hxy.
      * injection Hl' as <-. rewrite Hx in Hxy.
        unfold named at 2. rewrite filter_cons_True by done.
        fold (named n (y :: l)). by rewrite (named_name_gt n y l).
      * apply bind_OK in Hl' as (r & Hr & [= <-]).
        apply StronglySorted_cons in Hs as [_ Hs].
        unfold named. rewrite !(filter_cons_False _ y) by done.
        by apply IH.
Qed.

Lemma sorted_from_named n acc l l' :
  StronglySorted name_le acc → sorted_from (OK acc) l = OK l' →
  sorted_from (OK (named n acc)) (named n l) = OK (named n l').
Proof.
  revert acc. induction l as [|x l IH]; intros acc Hs.
  - by intros [= <-].
  - rewrite sorted_from_cons. simpl.
    destruct (insort x acc) as [acc'|e] eqn:Hins;
      [|by rewrite sorted_from_Raise].
    intros Hl'. pose proof (insort_name_sorted _ _ _ Hs Hins) as Hs'.
    destruct (decide (x.1 = n)) as [Hx|Hx].
    + unfold named at 2. rewrite filter_cons_True by done.
      rewrite sorted_from_cons. simpl.
      rewrite (insort_named_eq n x acc acc') by done. by apply IH.
    + unfold named at 2. rewrite filter_cons_False by done.
      rewrite <-(insort_named_ne n x acc acc') by done. by apply IH.
Qed.

(** Sorting keeps the attributes of one name in the order in which sorting
    them alone puts them. *)
Lemma sorted_named n l l' :
  sorted l = OK l' → sorted (named n l) = OK (named n l').
Proof. apply (sorted_from_named n []). constructor. Qed.

(** * Properties of [GetFieldValues] *)

(** ** [run] *)

Lemma run_bind_OK {A B} t (a : A) (f : A → run B) :
  Run t (OK a) ≫= f = Run (t ++ trace (f a)) (outcome (f a)).
Proof. done. Qed.

Lemma run_bind_Raise {A B} t e (f : A → run B) :
  Run t (Raise e) ≫= f = Run t (Raise e).
Proof. done. Qed.

Lemma run_eta {A} (r : run A) : Run (trace r) (outcome r) = r.
Proof. by destruct r. Qed.

Lemma lift_bind_OK {A B} (a : A) (f : A → run B) : lift (OK a) ≫= f = f a.
Proof. unfold lift. rewrite run_bind_OK. apply run_eta. Qed.

(** ** The loop over the attributes *)

Lemma set_attribute_run dt fv a :
  set_attribute dt fv a = Run (warnings_of dt a) (OK (write fv a)).
Proof.
  destruct a as [n v]. unfold set_attribute, write, stored, warnings_of.
  destruct v as [| | |[|[]]| | |]; done.
Qed.

Lemma for_each_set_attribute dt fv l :
  for_each (set_attribute dt) fv l
  = Run (l ≫= warnings_of dt) (OK (foldl write fv l)).
Proof.
  revert fv. induction l as [|a l IH]; intros fv; [done|].
  simpl. rewrite set_attribute_run, run_bind_OK, IH. done.
Qed.

Lemma foldl_write_named n fv fv' l :
  fv !! n = fv' !! n →
  foldl write fv l !! n = foldl write fv' (named n l) !! n.
Proof.
  revert fv fv'. induction l as [|a l IH]; intros fv fv' Heq; [done|].
  simpl. destruct (decide (a.1 = n)) as [Ha|Ha].
  - unfold named. rewrite filter_cons_True by done. simpl. apply IH.
    unfold write. destruct (stored a.2); [|done].
    by rewrite Ha, !lookup_insert_eq.
  - unfold named. rewrite filter_cons_False by done. apply IH.
    unfold write. destruct (stored a.2); [|done].
    by rewrite lookup_insert_ne.
Qed.

Lemma foldl_write_fresh n fv l :
  n ∉ l.*1 → foldl write fv l !! n = fv !! n.
Proof.
  intros Hn. rewrite (foldl_write_named n fv fv) by done.
  replace (named n l) with (@nil (str * value)); [done|].
  symmetry. apply elem_of_nil_inv. intros a [Ha Hin]%list_elem_of_filter.
  apply Hn. rewrite <-Ha. by apply list_elem_of_fmap_2.
Qed.

Lemma foldl_write_is_Some n fv l :
  is_Some (fv !! n) → is_Some (foldl write fv l !! n).
Proof.
  revert fv. induction l as [|a l IH]; intros fv Hn; [done|].
  simpl. apply IH. unfold write. destruct (stored a.2); [|done].
  destruct (decide (a.1 = n)) as [->|Hne].
  - by rewrite lookup_insert_eq.
  - by rewrite lookup_insert_ne.
Qed.

Lemma foldl_write_stored n v w fv l :
  (n, v) ∈ l → stored v = Some w → is_Some (foldl write fv l !! n).
Proof.
  revert fv. induction l as [|a l IH]; intros fv Hin Hw.
  - by apply elem_of_nil in Hin.
  - simpl. apply elem_of_cons in Hin as [<-|Hin]; [|by apply IH].
    apply foldl_write_is_Some. unfold write. simpl. rewrite Hw.
    by rewrite lookup_insert_eq.
Qed.

Lemma foldl_write_lookup n w fv l :
  foldl write fv l !! n = Some w →
  fv !! n = Some w ∨ ∃ v, (n, v) ∈ l ∧ stored v = Some w.
Proof.
  revert fv. induction l as [|a l IH]; intros fv; [by left|].
  simpl. intros [Hfv|(v & Hin & Hv)]%IH.
  - unfold write in Hfv. destruct (stored a.2) as [w'|] eqn:Hst; [|by left].
    destruct (decide (a.1 = n)) as [Ha|Ha].
    + rewrite Ha, lookup_insert_eq in Hfv. injection Hfv as ->.
      right. exists a.2. split; [|done]. rewrite <-Ha.
      destruct a. left.
    + rewrite lookup_insert_ne in Hfv by done. by left.
  - right. exists v. split; [by right|done].
Qed.

(** ** The three well-known fields *)

Lemma set_default_run GFF f ev ed eds tag fv :
  set_default GFF f ev ed eds tag fv
  = Run (default_call f fv) (OK (with_default f (GFF f ev ed eds tag) fv)).
Proof.
  unfold set_default, with_default, default_call. by destruct (fv !! f).
Qed.

Lemma with_default_is_Some f x fv : is_Some (with_default f x fv !! f).
Proof.
  unfold with_default. destruct (fv !! f) eqn:Hf.
  - by rewrite Hf.
  - by rewrite lookup_insert_eq.
Qed.

Lemma with_default_lookup_ne f x fv k :
  f ≠ k → with_default f x fv !! k = fv !! k.
Proof.
  intros Hne. unfold with_default. destruct (fv !! f); [done|].
  by rewrite lookup_insert_ne.
Qed.

Lemma with_default_lookup_Some f x fv k v :
  fv !! k = Some v → with_default f x fv !! k = Some v.
Proof.
  intros Hk. unfold with_default. destruct (fv !! f) eqn:Hf; [done|].
  rewrite lookup_insert_ne; [done|]. congruence.
Qed.

Section GetFieldValues_facts.

Context (CopyToString : AttributeContainerIdentifier → result str).
Context (CopyToDateTimeStringISO8601 : Z → result str).
Context (GetFormattedField :
  str → EventObject → EventData → option EventDataStream →
  option EventTag → str).

Local Abbreviation GetFieldValues :=
  (GetFieldValues CopyToString CopyToDateTimeStringISO8601
     GetFormattedField).

(** [GetFieldValues] raises what the materialization of the identifier
    or of the date and time string raises, or what [sorted] raises, and
    nothing else; on the other runs it is the composition below. *)
Lemma GetFieldValues_unfold ev ed eds tag :
  GetFieldValues ev ed eds tag =
  match CopyToString (GetIdentifier ev) with
  | Raise e => Run [] (Raise e)
  | OK ids =>
      match CopyToDateTimeStringISO8601 (timestamp ev) with
      | Raise e => Run [] (Raise e)
      | OK ts =>
          match sorted (event_attributes ed eds) with
          | Raise e => Run [] (Raise e)
          | OK l =>
              let fv := foldl write (seed ids ts) l in
              let fv1 :=
                with_default (u "display_name")
                  (GetFormattedField (u "display_name") ev ed eds tag)
                  fv in
              let fv2 :=
                with_default (u "filename")
                  (GetFormattedField (u "filename") ev ed eds tag) fv1 in
              let fv3 :=
                with_default (u "inode")
                  (GetFormattedField (u "inode") ev ed eds tag) fv2 in
              Run ((l ≫= warnings_of (data_type ed))
                   ++ default_call (u "display_name") fv
                   ++ default_call (u "filename") fv1
                   ++ default_call (u "inode") fv2)
                  (OK (with_tag tag fv3))
          end
      end
  end.
Proof.
  unfold GetFieldValues.
  destruct (CopyToString (GetIdentifier ev)) as [ids|e]; [|done].
  rewrite lift_bind_OK.
  destruct (CopyToDateTimeStringISO8601 (timestamp ev)) as [ts|e]; [|done].
  rewrite lift_bind_OK. fold (seed ids ts). fold (event_attributes ed eds).
  destruct (sorted (event_attributes ed eds)) as [l|e]; [|done].
  rewrite lift_bind_OK, for_each_set_attribute, run_bind_OK.
  do 3 (rewrite set_default_run, run_bind_OK; cbn [trace outcome]).
  by rewrite app_nil_r.
Qed.

End GetFieldValues_facts.

(** * Properties of [WriteFieldValues] *)

Lemma rmap_OK {A B} (f : A → result B) l :
  (∀ x, x ∈ l → ∃ y, f x = OK y) → ∃ ys, rmap f l = OK ys.
Proof.
  induction l as [|x l IH]; intros Hl; [by eexists|].
  destruct (Hl x) as [y Hy]; [left|].
  destruct IH as [ys Hys]; [intros; apply Hl; by right|].
  simpl. rewrite Hy. simpl. rewrite Hys. by eexists.
Qed.

Lemma rmap_OK_inv {A B} (f : A → result B) l ys x :
  rmap f l = OK ys → x ∈ l → ∃ y, f x = OK y.
Proof.
  revert ys. induction l as [|z l IH]; intros ys Hys Hx.
  - by apply elem_of_nil in Hx.
  - simpl in Hys. apply bind_OK in Hys as (y & Hy & Hys).
    apply bind_OK in Hys as (ys' & Hys' & _).
    apply elem_of_cons in Hx as [->|Hx]; eauto.
Qed.

Lemma rmap_cons_inv {A B} (f : A → result B) x l ys :
  rmap f (x :: l) = OK ys →
  ∃ y ys', f x = OK y ∧ rmap f l = OK ys' ∧ ys = y :: ys'.
Proof.
  simpl. intros (y & Hy & (ys' & Hys' & [= <-])%bind_OK)%bind_OK.
  by exists y, ys'.
Qed.


Lemma rmap_elem {A B} (f : A → result B) l ys x :
  rmap f l = OK ys → x ∈ l → ∃ y, f x = OK y ∧ y ∈ ys.
Proof.
  revert ys. induction l as [|z l IH]; intros ys Hys Hx.
  - by apply elem_of_nil in Hx.
  - apply rmap_cons_inv in Hys as (y & ys' & Hy & Hys' & ->).
    apply elem_of_cons in Hx as [->|Hx].
    + exists y. split; [done|left].
    + destruct (IH _ Hys' Hx) as (y' & ? & ?). exists y'.
      split; [done|by right].
Qed.

Lemma rmap_elem_inv {A B} (f : A → result B) l ys y :
  rmap f l = OK ys → y ∈ ys → ∃ x, x ∈ l ∧ f x = OK y.
Proof.
  revert ys. induction l as [|z l IH]; intros ys Hys Hy.
  - injection Hys as <-. by apply elem_of_nil in Hy.
  - apply rmap_cons_inv in Hys as (y' & ys' & Hy' & Hys' & ->).
    apply elem_of_cons in Hy as [->|Hy].
    + exists z. split; [left|done].
    + destruct (IH _ Hys' Hy) as (x & ? & ?). exists x.
      split; [by right|done].
Qed.

(** The items of a [dict] sort without an exception: its keys are
    distinct. *)
Lemma sorted_items (fv : gmap str value) :
  ∃ items, sorted (map_to_list fv) = OK items.
Proof. apply sorted_total, NoDup_fst_map_to_list. Qed.

Lemma sorted_items_lookup (fv : gmap str value) items k v :
  sorted (map_to_list fv) = OK items → (k, v) ∈ items ↔ fv !! k = Some v.
Proof.
  intros Hs. rewrite (sorted_Permutation _ _ Hs).
  apply elem_of_map_to_list.
Qed.

Lemma format_s_OK v s : format_s v = OK s ↔ v = VStr s.
Proof. destruct v; simpl; naive_solver. Qed.

Lemma format_s_is_str v : is_str v = true ↔ ∃ s, format_s v = OK s.
Proof. destruct v; simpl; naive_solver. Qed.

Section WriteFieldValues_facts.

Context (RESERVED_VARIABLE_NAMES : list str) (repr : value → result str).

Local Abbreviation field_string := (field_string repr).
Local Abbreviation attribute_lines :=
  (attribute_lines RESERVED_VARIABLE_NAMES repr).
Local Abbreviation lines_of_text :=
  (lines_of_text RESERVED_VARIABLE_NAMES repr).
Local Abbreviation WriteFieldValues :=
  (WriteFieldValues RESERVED_VARIABLE_NAMES repr).

Local Abbreviation is_reserved := (is_reserved RESERVED_VARIABLE_NAMES).
Local Abbreviation is_additional :=
  (is_additional RESERVED_VARIABLE_NAMES).
Local Abbreviation line_of := (line_of repr).

Lemma field_string_OK k v line :
  field_string k v = OK line ↔
  ∃ s, py_str repr v = OK s ∧ line = u "  {" ++ k ++ u "} " ++ s.
Proof.
  unfold field_string. rewrite bind_OK. split.
  - intros (s & Hs & [= <-]). by exists s.
  - intros (s & Hs & ->). by exists s.
Qed.

Lemma has_str_OK v : has_str repr v = true ↔ ∃ s, py_str repr v = OK s.
Proof. unfold has_str. destruct (py_str repr v); naive_solver. Qed.

Lemma line_of_OK a : has_str repr a.2 = true ↔ ∃ line, line_of a = OK line.
Proof.
  rewrite has_str_OK. unfold line_of. split.
  - intros [s Hs]. eexists. apply field_string_OK. by exists s.
  - intros [line (s & Hs & _)%field_string_OK]. by exists s.
Qed.

(** The loop gives each section the lines of its fields, in the order of
    the items. *)
Lemma attribute_lines_from_OK reserved additional items res add :
  attribute_lines_from RESERVED_VARIABLE_NAMES repr reserved additional items
  = OK (res, add) ↔
  ∃ res' add',
    rmap line_of (filter is_reserved items) = OK res' ∧
    rmap line_of (filter is_additional items) = OK add' ∧
    res = reserved ++ res' ∧ add = additional ++ add'.
Proof.
  revert reserved additional.
  induction items as [|[n v] items IH]; intros reserved additional.
  - simpl. split.
    + intros [= <- <-]. exists [], []. by rewrite !app_nil_r.
    + intros (res' & add' & [= <-] & [= <-] & -> & ->).
      by rewrite !app_nil_r.
  - cbn [attribute_lines_from]. rewrite !filter_cons.
    case_bool_decide as Hs.
    { rewrite !decide_False by (by intros [? _]). apply IH. }
    destruct (decide (n ∈ RESERVED_VARIABLE_NAMES)) as [Hr|Hr].
    + rewrite decide_True, decide_False by (by intros [_ ?] || by split).
      rewrite (bool_decide_eq_true_2 _ Hr). cbn [rmap].
      change (line_of (n, v)) with (field_string n v).
      destruct (field_string n v) as [line|e].
      * rewrite !OK_bind. lazy beta iota. rewrite IH. split.
        -- intros (res' & add' & Hres & Hadd & -> & ->).
           exists (line :: res'), add'. rewrite Hres, OK_bind.
           split_and!; [done..|by rewrite <-app_assoc|done].
        -- intros (res' & add' & (res'' & Hres & [= <-])%bind_OK & Hadd
                   & -> & ->).
           exists res'', add'.
           split_and!; [done..|by rewrite <-app_assoc|done].
      * simpl. split; [done|]. by intros (? & ? & ? & _).
    + rewrite decide_False, decide_True by (by intros [_ ?] || by split).
      rewrite (bool_decide_eq_false_2 _ Hr). cbn [rmap].
      change (line_of (n, v)) with (field_string n v).
      destruct (field_string n v) as [line|e].
      * rewrite !OK_bind. lazy beta iota. rewrite IH. split.
        -- intros (res' & add' & Hres & Hadd & -> & ->).
           exists res', (line :: add'). rewrite Hadd, OK_bind.
           split_and!; [done..|by rewrite <-app_assoc].
        -- intros (res' & add' & Hres & (add'' & Hadd & [= <-])%bind_OK
                   & -> & ->).
           exists res', add''.
           split_and!; [done..|by rewrite <-app_assoc].
      * simpl. split; [done|]. by intros (? & ? & _ & ? & _).
Qed.

Lemma attribute_lines_OK items res add :
  attribute_lines items = OK (res, add) ↔
  rmap line_of (filter is_reserved items) = OK res ∧
  rmap line_of (filter is_additional items) = OK add.
Proof.
  unfold attribute_lines. rewrite attribute_lines_from_OK. split.
  - by intros (res' & add' & ? & ? & -> & ->).
  - intros [? ?]. by exists res, add.
Qed.

(** The loop returns exactly when every field it formats has a [str]. *)
Lemma attribute_lines_returns items :
  (∀ a, a ∈ items → a.1 ∉ STRUCTURAL_KEYS → has_str repr a.2 = true) ↔
  ∃ sections, attribute_lines items = OK sections.
Proof.
  split.
  - intros Hall.
    destruct (rmap_OK line_of (filter is_reserved items)) as [res Hres].
    { intros a [[Hs _] Hin]%list_elem_of_filter. apply line_of_OK. eauto. }
    destruct (rmap_OK line_of (filter is_additional items)) as [add Hadd].
    { intros a [[Hs _] Hin]%list_elem_of_filter. apply line_of_OK. eauto. }
    exists (res, add). by apply attribute_lines_OK.
  - intros [[res add] [Hres Hadd]%attribute_lines_OK] a Hin Hs.
    apply line_of_OK.
    destruct (decide (a.1 ∈ RESERVED_VARIABLE_NAMES)) as [Hr|Hr].
    + apply (rmap_OK_inv _ _ _ a Hres). by apply list_elem_of_filter.
    + apply (rmap_OK_inv _ _ _ a Hadd). by apply list_elem_of_filter.
Qed.

Lemma renders_lookup fv :
  renders repr fv = true ↔
  ∀ k v, fv !! k = Some v → k ∉ STRUCTURAL_KEYS → has_str repr v = true.
Proof.
  unfold renders. rewrite forallb_forall. split.
  - intros Hall k v Hk Hs.
    specialize (Hall (k, v)). cbn [fst snd] in Hall.
    rewrite bool_decide_eq_false_2 in Hall by done. apply Hall.
    by apply list_elem_of_In, elem_of_map_to_list.
  - intros Hall [k v] Hin%list_elem_of_In%elem_of_map_to_list.
    cbn [fst snd]. case_bool_decide; [done|]. by eapply Hall.
Qed.

Lemma renders_items fv items :
  sorted (map_to_list fv) = OK items →
  renders repr fv = true ↔ ∃ sections, attribute_lines items = OK sections.
Proof.
  intros Hitems. rewrite renders_lookup, <-attribute_lines_returns. split.
  - intros Hall [k v] Hin. apply (Hall k v).
    by apply (sorted_items_lookup _ _ _ _ Hitems).
  - intros Hall k v Hk. apply (Hall (k, v)).
    by apply (sorted_items_lookup _ _ _ _ Hitems).
Qed.

Lemma pathspec_lines_OK fv lines :
  match fv !! u "path_spec" with
  | Some v => negb (truthy v) || is_path_spec v
  | None => true
  end = true ↔ ∃ lines', pathspec_lines fv lines = OK lines'.
Proof.
  unfold pathspec_lines. destruct (fv !! u "path_spec") as [v|]; [|naive_solver].
  destruct v as [[]|z|[]|[]| | |]; simpl; try case_bool_decide;
    naive_solver.
Qed.

Lemma tag_lines_OK fv lines :
  match fv !! u "_event_tag_labels" with
  | Some v => negb (truthy v) || is_labels v
  | None => true
  end = true ↔ ∃ lines', tag_lines fv lines = OK lines'.
Proof.
  unfold tag_lines.
  destruct (fv !! u "_event_tag_labels") as [v|]; [|naive_solver].
  destruct (truthy v) eqn:Htruthy; simpl; [|naive_solver].
  split.
  - intros Hv.
    assert (∃ elements, iterate v = OK elements ∧
              ∀ x, x ∈ elements → is_str x = true) as (els & -> & Hels).
    { destruct v; try done; simpl in *.
      - eexists. split; [done|]. by intros x (c & -> & _)%list_elem_of_fmap.
      - eexists. split; [done|]. intros x Hx.
        rewrite forallb_forall in Hv. by apply Hv, list_elem_of_In. }
    rewrite OK_bind.
    destruct (rmap_OK (λ label, s ← format_s label;
                                OK (u "'" ++ s ++ u "'")) els) as [q ->].
    { intros x [s ->]%Hels%format_s_is_str. by eexists. }
    rewrite OK_bind. by eexists.
  - intros [lines' Hlines].
    apply bind_OK in Hlines as (els & Hels & Hlines).
    apply bind_OK in Hlines as (q & Hq & _).
    assert (∀ x, x ∈ els → is_str x = true) as Hall.
    { intros x Hx. destruct (rmap_OK_inv _ _ _ x Hq Hx) as [y Hy].
      apply bind_OK in Hy as (s & Hs & _). apply format_s_is_str. eauto. }
    destruct v as [s|z|b|l| | |]; simpl in *; try done.
    + injection Hels as <-. destruct b as [|c b]; [done|].
      apply (Hall (VInt (Z.of_N (Byte.to_N c)))). left.
    + injection Hels as <-.
      apply forallb_forall. intros x Hx. by apply Hall, list_elem_of_In.
Qed.

(** [WriteFieldValues] returns exactly on the well-formed field values. *)
Lemma lines_of_text_OK fv :
  well_formed repr fv = true ↔ ∃ lines, lines_of_text fv = OK lines.
Proof.
  unfold well_formed, lines_of_text.
  destruct (sorted_items fv) as [items Hitems]. rewrite Hitems, OK_bind.
  rewrite !andb_true_iff, (renders_items fv items Hitems).
  destruct (attribute_lines items) as [[reserved additional]|e]; simpl.
  2: { split; [by intros [[[[? ?] _] _] _]|by intros [? ?]]. }
  destruct (fv !! u "_timestamp") as [v|]; simpl; [|naive_solver].
  destruct (format_s v) as [ts|e] eqn:Hts; simpl.
  - assert (is_str v = true) as -> by (apply format_s_is_str; eauto).
    rewrite (pathspec_lines_OK fv
               [SEPARATOR; u "[Timestamp]:"; u "  " ++ ts]).
    split.
    + intros [[_ [head ->]] Htag]. simpl.
      eapply tag_lines_OK in Htag as [lines' ->]. simpl. by eexists.
    + intros [lines Hlines].
      apply bind_OK in Hlines as (head & Hhead & Hlines).
      apply bind_OK in Hlines as (lines' & Hlines' & _).
      split_and!; [by eexists|done|by eexists|].
      eapply tag_lines_OK. by eexists.
  - split; [|by intros [? ?]].
    intros [[[_ [s Hs]%format_s_is_str] _] _]. congruence.
Qed.

(** The steps of a run of [lines_of_text] that returns. *)
Lemma lines_of_text_inv fv lines :
  lines_of_text fv = OK lines →
  ∃ items reserved additional ts head body,
    sorted (map_to_list fv) = OK items ∧
    attribute_lines items = OK (reserved, additional) ∧
    fv !! u "_timestamp" = Some (VStr ts) ∧
    pathspec_lines fv [SEPARATOR; u "[Timestamp]:"; u "  " ++ ts]
      = OK head ∧
    tag_lines fv
      ((((head ++ [[]; u "[Reserved attributes]:"]) ++ reserved)
        ++ [[]; u "[Additional attributes]:"])
       ++ additional) = OK body ∧
    lines = body ++ [[]].
Proof.
  unfold lines_of_text. intros (items & Hitems & Hlines)%bind_OK.
  apply bind_OK in Hlines as ([reserved additional] & Hattr & Hlines).
  apply bind_OK in Hlines as (v & Hv & Hlines).
  apply bind_OK in Hlines as (ts & ->%format_s_OK & Hlines).
  apply bind_OK in Hlines as (head & Hhead & Hlines).
  apply bind_OK in Hlines as (body & Hbody & [= <-]).
  destruct (fv !! u "_timestamp") as [v|] eqn:Hts; [|done].
  injection Hv as ->. by exists items, reserved, additional, ts, head, body.
Qed.

(** The shape of the lines [WriteFieldValues] joins. *)
Lemma lines_of_text_shape fv lines :
  lines_of_text fv = OK lines →
  ∃ items reserved additional ts head tail,
    sorted (map_to_list fv) = OK items ∧
    attribute_lines items = OK (reserved, additional) ∧
    fv !! u "_timestamp" = Some (VStr ts) ∧
    pathspec_lines fv [SEPARATOR; u "[Timestamp]:"; u "  " ++ ts]
      = OK head ∧
    lines = head ++ [[]; u "[Reserved attributes]:"]
            ++ reserved
            ++ [[]; u "[Additional attributes]:"]
            ++ additional
            ++ tail.
Proof.
  intros (items & reserved & additional & ts & head & body & Hitems & Hattr
          & Hts & Hhead & Hbody & ->)%lines_of_text_inv.
  assert (∃ tail', body = (((head ++ [[]; u "[Reserved attributes]:"])
              ++ reserved)
              ++ [[]; u "[Additional attributes]:"])
              ++ additional ++ tail')
    as [tail' ->].
  { unfold tag_lines in Hbody.
    destruct (fv !! u "_event_tag_labels") as [w|];
      [destruct (truthy w)|].
    - apply bind_OK in Hbody as (els & _ & Hbody).
      apply bind_OK in Hbody as (q & _ & [= <-]).
      eexists. by rewrite <-app_assoc.
    - injection Hbody as <-. exists []. by rewrite !app_nil_r.
    - injection Hbody as <-. exists []. by rewrite !app_nil_r. }
  exists items, reserved, additional, ts, head, (tail' ++ [[]]).
  split_and!; [done..|]. by rewrite <-!app_assoc.
Qed.

End WriteFieldValues_facts.

(** * Properties of the UTF-8 codec *)

Module Utf8_facts.
Import Utf8.

(** Linear arithmetic with division and remainder by constants. *)
Ltac div_lia := zify; Z.to_euclidean_division_equations; lia.

(** Decide the comparisons of the goal, closing the impossible cases. *)
Ltac compare_cases :=
  repeat match goal with
  | |- context [N.ltb ?a ?b] => destruct (N.ltb_spec a b); try div_lia
  | |- context [N.leb ?a ?b] => destruct (N.leb_spec a b); try div_lia
  | |- context [N.eqb ?a ?b] => destruct (N.eqb_spec a b); try div_lia
  end.

Lemma is_scalar_range c :
  is_scalar c = true ↔ (c < 0xD800 ∨ 0xDFFF < c < 0x110000)%N.
Proof.
  unfold is_scalar.
  rewrite orb_true_iff, andb_true_iff, !N.ltb_lt. tauto.
Qed.

(** One step of the decoder, on the first byte and its successors. *)
Lemma decode_replace_cons b0 r :
  decode_replace (b0 :: r) =
  if (b0 <? 0x80)%N then b0 :: decode_replace r
  else if (b0 <? 0xC2)%N then REPLACEMENT :: decode_replace r
  else if (b0 <? 0xE0)%N then
    match r with
    | [] => [REPLACEMENT]
    | b1 :: r1 =>
        if is_continuation b1
        then ((b0 - 0xC0) * 64 + (b1 - 0x80))%N :: decode_replace r1
        else REPLACEMENT :: decode_replace r
    end
  else if (b0 <? 0xF0)%N then
    match r with
    | [] => [REPLACEMENT]
    | b1 :: r1 =>
        if negb (is_continuation b1)
           || (if (b1 <? 0xA0)%N then (b0 =? 0xE0)%N else (b0 =? 0xED)%N)
        then REPLACEMENT :: decode_replace r
        else
          match r1 with
          | [] => [REPLACEMENT]
          | b2 :: r2 =>
              if is_continuation b2
              then ((b0 - 0xE0) * 4096 + (b1 - 0x80) * 64 + (b2 - 0x80))%N
                     :: decode_replace r2
              else REPLACEMENT :: decode_replace r1
          end
    end
  else if (b0 <? 0xF5)%N then
    match r with
    | [] => [REPLACEMENT]
    | b1 :: r1 =>
        if negb (is_continuation b1)
           || (if (b1 <? 0x90)%N then (b0 =? 0xF0)%N else (b0 =? 0xF4)%N)
        then REPLACEMENT :: decode_replace r
        else
          match r1 with
          | [] => [REPLACEMENT]
          | b2 :: r2 =>
              if negb (is_continuation b2)
              then REPLACEMENT :: decode_replace r1
              else
                match r2 with
                | [] => [REPLACEMENT]
                | b3 :: r3 =>
                    if is_continuation b3
                    then ((b0 - 0xF0) * 262144 + (b1 - 0x80) * 4096
                          + (b2 - 0x80) * 64 + (b3 - 0x80))%N
                           :: decode_replace r3
                    else REPLACEMENT :: decode_replace r2
                end
          end
    end
  else REPLACEMENT :: decode_replace r.
Proof. destruct r as [|? [|? [|? ?]]]; reflexivity. Qed.

(** The decoder reads back the encoding of a scalar value, whatever
    follows it. *)
Lemma decode_encode_char c rest :
  is_scalar c = true →
  decode_replace (encode_char c ++ rest) = c :: decode_replace rest.
Proof.
  intros Hc%is_scalar_range. unfold encode_char.
  destruct (N.ltb_spec c 0x80);
    [|destruct (N.ltb_spec c 0x800); [|destruct (N.ltb_spec c 0x10000)]];
    cbn [app]; rewrite decode_replace_cons; unfold is_continuation.
  - compare_cases. done.
  - compare_cases. cbn [andb]. f_equal. div_lia.
  - compare_cases; cbn [andb negb orb]; f_equal; div_lia.
  - compare_cases; cbn [andb negb orb]; f_equal; div_lia.
Qed.

Lemma encode_char_bytes c :
  is_scalar c = true → Forall (λ n, n ≤ 255)%N (encode_char c).
Proof.
  intros Hc%is_scalar_range. unfold encode_char.
  compare_cases; repeat constructor; div_lia.
Qed.

Lemma to_N_byte_of_N n : (n ≤ 255)%N → Byte.to_N (byte_of_N n) = n.
Proof.
  intros Hn. unfold byte_of_N.
  destruct (Byte.of_N n) as [b|] eqn:Hb; simpl.
  - by apply Byte.to_of_N.
  - apply Byte.of_N_None_iff in Hb. lia.
Qed.

Lemma to_N_byte_of_N_list l :
  Forall (λ n, n ≤ 255)%N l → Byte.to_N <$> (byte_of_N <$> l) = l.
Proof.
  induction 1 as [|n l Hn _ IH]; [done|].
  rewrite !fmap_cons, IH. f_equal. by apply to_N_byte_of_N.
Qed.

(** Valid UTF-8 decodes to the text it encodes. *)
Lemma decode_encode s :
  Forall (λ c, is_scalar c = true) s → decode (encode s) = s.
Proof.
  intros Hs. unfold decode, encode. rewrite to_N_byte_of_N_list.
  - induction Hs as [|c s Hc _ IH]; [done|].
    rewrite bind_cons, decode_encode_char by done. by f_equal.
  - induction Hs as [|c s Hc _ IH]; simpl; [constructor|].
    apply Forall_app. split; [by apply encode_char_bytes|done].
Qed.

End Utf8_facts.

(** * Where the field values come from *)

(** Settle a closed decidable statement by evaluation. *)
Ltac by_computation :=
  apply (bool_decide_unpack _); vm_compute; exact I.

(** Two different literals are different names. *)
Ltac literals_differ :=
  let H := fresh in intros H; vm_compute in H; discriminate H.

Lemma stored_None v : stored v = None ↔ is_ignored v = true.
Proof.
  unfold stored, is_ignored.
  destruct (is_identifier_or_date_time v), (is_date_time_list v); naive_solver.
Qed.

Lemma stored_not_ignored v w : stored v = Some w → is_ignored w = false.
Proof.
  unfold stored, is_ignored.
  destruct (is_identifier_or_date_time v) eqn:H1; [done|].
  destruct (is_date_time_list v) eqn:H2; [done|].
  intros [= <-]. destruct v; first [done | by rewrite H1, H2].
Qed.

Lemma formatted_not_warning f dt l : Formatted f ∉ l ≫= warnings_of dt.
Proof.
  intros (a & Ha & _)%list_elem_of_bind. unfold warnings_of in Ha.
  destruct a.2; try by apply elem_of_nil in Ha.
  by apply list_elem_of_singleton in Ha.
Qed.

Lemma formatted_default_call f k fv :
  Formatted f ∈ default_call k fv → k = f ∧ fv !! f = None.
Proof.
  unfold default_call. destruct (fv !! k) eqn:Hk.
  - by intros ?%elem_of_nil.
  - by intros [= <-]%list_elem_of_singleton.
Qed.

Lemma with_default_lookup f x fv k w :
  with_default f x fv !! k = Some w →
  fv !! k = Some w ∨ (k = f ∧ fv !! f = None ∧ w = VStr x).
Proof.
  unfold with_default. destruct (fv !! f) eqn:Hf; [by left|].
  destruct (decide (f = k)) as [<-|Hne].
  - rewrite lookup_insert_eq. intros [= <-]. by right.
  - rewrite lookup_insert_ne by done. by left.
Qed.

Lemma seed_lookup ids ts k w :
  seed ids ts !! k = Some w →
  (k = u "_event_identifier" ∧ w = VStr ids) ∨
  (k = u "_timestamp" ∧ w = VStr ts).
Proof.
  unfold seed. destruct (decide (u "_timestamp" = k)) as [<-|Hne].
  { rewrite lookup_insert_eq. intros [= <-]. by right. }
  rewrite lookup_insert_ne by done.
  destruct (decide (u "_event_identifier" = k)) as [<-|Hne'].
  { rewrite lookup_insert_eq. intros [= <-]. by left. }
  by rewrite lookup_insert_ne, lookup_empty.
Qed.

Section provenance.

Context (CopyToString : AttributeContainerIdentifier → result str).
Context (CopyToDateTimeStringISO8601 : Z → result str).
Context (GetFormattedField :
  str → EventObject → EventData → option EventDataStream →
  option EventTag → str).

Local Abbreviation GetFieldValues :=
  (GetFieldValues CopyToString CopyToDateTimeStringISO8601
     GetFormattedField).

(** A run that returns went through [sorted]. *)
Lemma GetFieldValues_OK ev ed eds tag t fv :
  GetFieldValues ev ed eds tag = Run t (OK fv) →
  ∃ ids ts l,
    CopyToString (GetIdentifier ev) = OK ids ∧
    CopyToDateTimeStringISO8601 (timestamp ev) = OK ts ∧
    sorted (event_attributes ed eds) = OK l ∧
    let fv0 := foldl write (seed ids ts) l in
    let fv1 :=
      with_default (u "display_name")
        (GetFormattedField (u "display_name") ev ed eds tag) fv0 in
    let fv2 :=
      with_default (u "filename")
        (GetFormattedField (u "filename") ev ed eds tag) fv1 in
    let fv3 :=
      with_default (u "inode")
        (GetFormattedField (u "inode") ev ed eds tag) fv2 in
    fv = with_tag tag fv3 ∧
    t = (l ≫= warnings_of (data_type ed))
        ++ default_call (u "display_name") fv0
        ++ default_call (u "filename") fv1
        ++ default_call (u "inode") fv2.
Proof.
  rewrite GetFieldValues_unfold.
  destruct (CopyToString _) as [ids|]; [|done].
  destruct (CopyToDateTimeStringISO8601 _) as [ts|]; [|done].
  destruct (sorted _) as [l|]; [|done].
  intros [= <- <-]. by exists ids, ts, l.
Qed.

(** Every field value is the label list of the tag, the stored form of an
    attribute, one of the two seeds, or the answer of the helper for one of
    the three well-known names. *)
Lemma GetFieldValues_lookup ev ed eds tag t fv k w :
  GetFieldValues ev ed eds tag = Run t (OK fv) →
  fv !! k = Some w →
  (k = u "_event_tag_labels" ∧
     ∃ tag', tag = Some tag' ∧ w = VList (VStr <$> labels tag')) ∨
  (∃ v, (k, v) ∈ event_attributes ed eds ∧ stored v = Some w) ∨
  (k ∈ [u "_event_identifier"; u "_timestamp"] ∧ ∃ s, w = VStr s) ∨
  (k ∈ [u "display_name"; u "filename"; u "inode"] ∧
     w = VStr (GetFormattedField k ev ed eds tag)).
Proof.
  intros (ids & ts & l & _ & _ & Hl & -> & _)%GetFieldValues_OK Hk.
  destruct (decide (k = u "_event_tag_labels")) as [->|Hne];
    [destruct tag as [tag'|]|].
  - left. split; [done|]. exists tag'. split; [done|].
    unfold with_tag in Hk. rewrite lookup_insert_eq in Hk. congruence.
  - right. revert Hk. unfold with_tag.
    intros [Hk|(Hf & _)]%with_default_lookup; [|by vm_compute in Hf].
    revert Hk. intros [Hk|(Hf & _)]%with_default_lookup;
      [|by vm_compute in Hf].
    revert Hk. intros [Hk|(Hf & _)]%with_default_lookup;
      [|by vm_compute in Hf].
    apply foldl_write_lookup in Hk as [[[Hf _]|[Hf _]]%seed_lookup|Hk];
      [by vm_compute in Hf..|].
    left. destruct Hk as (v & Hv & Hst). exists v. split; [|done].
    by rewrite <-(sorted_Permutation _ _ Hl).
  - right. assert (with_tag tag
        (with_default (u "inode")
           (GetFormattedField (u "inode") ev ed eds tag)
           (with_default (u "filename")
              (GetFormattedField (u "filename") ev ed eds tag)
              (with_default (u "display_name")
                 (GetFormattedField (u "display_name") ev ed eds tag)
                 (foldl write (seed ids ts) l)))) !! k
      = with_default (u "inode")
           (GetFormattedField (u "inode") ev ed eds tag)
           (with_default (u "filename")
              (GetFormattedField (u "filename") ev ed eds tag)
              (with_default (u "display_name")
                 (GetFormattedField (u "display_name") ev ed eds tag)
                 (foldl write (seed ids ts) l))) !! k) as Heq.
    { unfold with_tag. destruct tag; [|done]. by rewrite lookup_insert_ne. }
    rewrite Heq in Hk. clear Heq.
    apply with_default_lookup in Hk as [Hk|(-> & _ & ->)];
      [|right; right; split; [set_solver|done]].
    apply with_default_lookup in Hk as [Hk|(-> & _ & ->)];
      [|right; right; split; [set_solver|done]].
    apply with_default_lookup in Hk as [Hk|(-> & _ & ->)];
      [|right; right; split; [set_solver|done]].
    apply foldl_write_lookup in Hk as [[[-> ->]|[-> ->]]%seed_lookup|Hk].
    + right. left. split; [set_solver|by eexists].
    + right. left. split; [set_solver|by eexists].
    + left. destruct Hk as (v & Hv & Hst). exists v. split; [|done].
      by rewrite <-(sorted_Permutation _ _ Hl).
Qed.

(** The five keys every returned mapping has. *)
Lemma GetFieldValues_keys ev ed eds tag t fv k :
  GetFieldValues ev ed eds tag = Run t (OK fv) →
  k ∈ [u "_event_identifier"; u "_timestamp"; u "display_name";
       u "filename"; u "inode"] →
  is_Some (fv !! k).
Proof.
  intros (ids & ts & l & _ & _ & Hl & -> & _)%GetFieldValues_OK Hk.
  assert (∀ fv', is_Some (fv' !! k) → is_Some (with_tag tag fv' !! k))
    as Htag.
  { intros fv' Hfv'. unfold with_tag. destruct tag; [|done].
    destruct (decide (u "_event_tag_labels" = k)) as [<-|Hne].
    - by rewrite lookup_insert_eq.
    - by rewrite lookup_insert_ne. }
  assert (∀ f x fv', is_Some (fv' !! k) →
            is_Some (with_default f x fv' !! k)) as Hdef.
  { intros f x fv' [w Hw]. exists w. by apply with_default_lookup_Some. }
  apply Htag. repeat (apply elem_of_cons in Hk as [->|Hk]).
  - do 3 apply Hdef. apply foldl_write_is_Some. unfold seed.
    rewrite lookup_insert_ne by literals_differ.
    by rewrite lookup_insert_eq.
  - do 3 apply Hdef. apply foldl_write_is_Some. unfold seed.
    by rewrite lookup_insert_eq.
  - do 2 apply Hdef. apply with_default_is_Some.
  - apply Hdef, with_default_is_Some.
  - apply with_default_is_Some.
  - by apply elem_of_nil in Hk.
Qed.

End provenance.

(** * The claims *)

(** ** C2: when [GetFieldValues] returns *)

(** C2, counterexample.  The claim lets [GetFieldValues] fail only when the
    identifier or the timestamp cannot be materialized.  Here both
    materialize, the event data carries [x = 1] and the stream [x = 'a']:
    [sorted] compares the tuples [('x', 1)] and [('x', 'a')], the names are
    equal, so it asks [1 < 'a'], which raises [TypeError]. *)
Lemma C2_counterexample :
  sample_CopyToString (GetIdentifier sample_event) = OK (u "event.1") ∧
  Dfdatetime.CopyToDateTimeStringISO8601 (timestamp sample_event)
    = OK (u "2024-01-01T00:00:00.000000+00:00") ∧
  outcome
    (sample_GetFieldValues
       {| data_type := u "test:event";
          event_data_attributes := [(u "x", VInt 1)] |}
       (Some {| event_data_stream_attributes := [(u "x", VStr (u "a"))] |})
       None)
  = Raise TypeError.
Proof. split_and!; by vm_compute. Qed.

(** C2, as amended.  When the identifier and the timestamp materialize and
    the attribute names of the event data and of its stream are pairwise
    distinct, [GetFieldValues] returns a field mapping, whatever the values
    of the attributes. *)
Theorem C2_returns_on_distinct_names
    (CopyToString : AttributeContainerIdentifier → result str)
    (CopyToDateTimeStringISO8601 : Z → result str)
    (GetFormattedField :
      str → EventObject → EventData → option EventDataStream →
      option EventTag → str)
    ev ed eds tag ids ts :
  CopyToString (GetIdentifier ev) = OK ids →
  CopyToDateTimeStringISO8601 (timestamp ev) = OK ts →
  NoDup (event_attributes ed eds).*1 →
  ∃ t fv,
    GetFieldValues CopyToString CopyToDateTimeStringISO8601
      GetFormattedField ev ed eds tag = Run t (OK fv).
Proof.
  intros Hids Hts Hnames. rewrite GetFieldValues_unfold, Hids, Hts.
  destruct (sorted_total _ Hnames) as [l ->]. by eexists _, _.
Qed.

Lemma C2_returns_on_distinct_names_witness :
  ∃ t fv,
    sample_GetFieldValues
      {| data_type := u "test:event";
         event_data_attributes :=
           [(u "x", VInt 1); (u "y", VBytes [xff])] |}
      (Some {| event_data_stream_attributes := [(u "z", VStr (u "a"))] |})
      None
    = Run t (OK fv).
Proof.
  apply (C2_returns_on_distinct_names _ _ _ _ _ _ _
           (u "event.1") (u "2024-01-01T00:00:00.000000+00:00")).
  - by vm_compute.
  - by vm_compute.
  - by_computation.
Defined.

(** ** C5: the helper is not asked for a field the attributes give *)

(** C5, counterexample.  The attribute [filename] is present among the raw
    attributes, with a date and time value; the loop skips it, [filename]
    is still absent from the field values, and the helper is asked for
    it. *)
Lemma C5_counterexample :
  let event_data :=
    {| data_type := u "test:event";
       event_data_attributes :=
         [(u "filename", VDateTime {| normalized_timestamp := 0 |})] |} in
  u "filename" ∈ (event_attributes event_data None).*1 ∧
  Formatted (u "filename")
    ∈ trace (sample_GetFieldValues event_data None None).
Proof. split; by_computation. Qed.

(** C5, as amended.  When an attribute called [field_name] is present
    among the raw attributes with a value the loop stores (not an
    identifier, not a date and time value, not a list that starts with
    one), [GetFieldValues] never asks the helper for [field_name]; in
    particular not for [display_name], [filename] and [inode]. *)
Theorem C5_stored_field_is_not_formatted
    (CopyToString : AttributeContainerIdentifier → result str)
    (CopyToDateTimeStringISO8601 : Z → result str)
    (GetFormattedField :
      str → EventObject → EventData → option EventDataStream →
      option EventTag → str)
    ev ed eds tag field_name v :
  (field_name, v) ∈ event_attributes ed eds →
  is_ignored v = false →
  Formatted field_name
    ∉ trace (GetFieldValues CopyToString CopyToDateTimeStringISO8601
               GetFormattedField ev ed eds tag).
Proof.
  intros Hin Hv. rewrite GetFieldValues_unfold.
  destruct (CopyToString _) as [ids|]; [|by apply not_elem_of_nil].
  destruct (CopyToDateTimeStringISO8601 _) as [ts|];
    [|by apply not_elem_of_nil].
  destruct (sorted _) as [l|] eqn:Hl; [|by apply not_elem_of_nil].
  cbn [trace].
  destruct (stored v) as [w|] eqn:Hw;
    [|apply stored_None in Hw; congruence].
  assert (is_Some (foldl write (seed ids ts) l !! field_name)) as Hsome.
  { eapply foldl_write_stored; [|done].
    by rewrite (sorted_Permutation _ _ Hl). }
  assert (∀ f x fv, is_Some (fv !! field_name) →
            is_Some (with_default f x fv !! field_name)) as Hdef.
  { intros f x fv [w' Hw']. exists w'. by apply with_default_lookup_Some. }
  rewrite !elem_of_app.
  intros [Hwarn|[Hcall|[Hcall|Hcall]]].
  - by apply formatted_not_warning in Hwarn.
  - apply formatted_default_call in Hcall as [_ Hnone].
    rewrite Hnone in Hsome. by destruct Hsome.
  - apply formatted_default_call in Hcall as [_ Hnone].
    eapply Hdef in Hsome. rewrite Hnone in Hsome. by destruct Hsome.
  - apply formatted_default_call in Hcall as [_ Hnone].
    eapply Hdef, Hdef in Hsome. rewrite Hnone in Hsome. by destruct Hsome.
Qed.

Lemma C5_stored_field_is_not_formatted_witness :
  Formatted (u "filename")
    ∉ trace
        (sample_GetFieldValues
           {| data_type := u "test:event";
              event_data_attributes :=
                [(u "filename", VStr (u "/var/log/syslog"))] |}
           None None).
Proof.
  apply (C5_stored_field_is_not_formatted _ _ _ _ _ _ _ _
           (VStr (u "/var/log/syslog"))).
  - vm_compute. left.
  - reflexivity.
Defined.

(** ** The attribute sections *)

Section sections.

Context (RESERVED_VARIABLE_NAMES : list str) (repr : value → result str).

Local Abbreviation attribute_lines :=
  (attribute_lines RESERVED_VARIABLE_NAMES repr).
Local Abbreviation lines_of_text :=
  (lines_of_text RESERVED_VARIABLE_NAMES repr).

(** When the loop completes, a field that is not structural has its line
    in one of the two sections. *)
Lemma attribute_line_elem items reserved additional k w :
  attribute_lines items = OK (reserved, additional) →
  (k, w) ∈ items → k ∉ STRUCTURAL_KEYS →
  ∃ line, field_string repr k w = OK line ∧ line ∈ reserved ++ additional.
Proof.
  intros [Hres Hadd]%attribute_lines_OK Hin Hk.
  destruct (decide (k ∈ RESERVED_VARIABLE_NAMES)) as [Hr|Hr].
  - destruct (rmap_elem _ _ _ (k, w) Hres) as (line & Hline & Helem).
    { by apply list_elem_of_filter. }
    exists line. split; [done|]. apply elem_of_app. by left.
  - destruct (rmap_elem _ _ _ (k, w) Hadd) as (line & Hline & Helem).
    { by apply list_elem_of_filter. }
    exists line. split; [done|]. apply elem_of_app. by right.
Qed.

(** Every line of the two sections is the line of a field that is not
    structural. *)
Lemma attribute_line_inv items reserved additional line :
  attribute_lines items = OK (reserved, additional) →
  line ∈ reserved ++ additional →
  ∃ k w, (k, w) ∈ items ∧ (k ∉ STRUCTURAL_KEYS) ∧
         field_string repr k w = OK line.
Proof.
  intros [Hres Hadd]%attribute_lines_OK [Hin|Hin]%elem_of_app.
  - destruct (rmap_elem_inv _ _ _ _ Hres Hin)
      as ([k w] & [[Hk _] Hin']%list_elem_of_filter & Hline).
    by exists k, w.
  - destruct (rmap_elem_inv _ _ _ _ Hadd Hin)
      as ([k w] & [[Hk _] Hin']%list_elem_of_filter & Hline).
    by exists k, w.
Qed.

(** The lines of the two sections are lines of the output. *)
Lemma lines_of_text_attribute_line fv lines items reserved additional line :
  lines_of_text fv = OK lines → sorted (map_to_list fv) = OK items →
  attribute_lines items = OK (reserved, additional) →
  line ∈ reserved ++ additional →
  line ∈ lines.
Proof.
  intros (items' & reserved' & additional' & ts & head & tail & Hitems'
          & Hattr' & _ & _ & ->)%lines_of_text_shape Hitems Hattr Hline.
  rewrite Hitems in Hitems'. injection Hitems' as <-.
  rewrite Hattr in Hattr'. injection Hattr' as <- <-.
  apply elem_of_app in Hline as [Hline|Hline].
  - do 2 (apply elem_of_app; right). apply elem_of_app. by left.
  - do 4 (apply elem_of_app; right). apply elem_of_app. by left.
Qed.

(** The line of a field that is not structural is a line of the output. *)
Lemma lines_of_text_field_line fv lines k w :
  lines_of_text fv = OK lines → fv !! k = Some w → k ∉ STRUCTURAL_KEYS →
  ∃ line, field_string repr k w = OK line ∧ line ∈ lines.
Proof.
  intros Hlines Hk Hs.
  pose proof Hlines as (items & reserved & additional & _ & _ & _ & Hitems
                        & Hattr & _)%lines_of_text_shape.
  destruct (attribute_line_elem items reserved additional k w)
    as (line & Hline & Hin); [done| |done|].
  { by apply (sorted_items_lookup _ _ _ _ Hitems). }
  exists line. split; [done|].
  by eapply lines_of_text_attribute_line.
Qed.

End sections.

(** ** C6: identifiers and date and time values are left out *)

(** C6.  Every value of a mapping [GetFieldValues] returns is one the loop
    does not skip: an attribute whose value is an identifier, a date and
    time value or a list that starts with a date and time value is not
    stored, its name is absent altogether when no other attribute carries
    it and it is not a name [GetFieldValues] sets on its own, and every line
    of the reserved and additional sections the loop of [WriteFieldValues]
    builds renders a field whose value is none of these. *)
Theorem C6_ignored_values_are_excluded
    (CopyToString : AttributeContainerIdentifier → result str)
    (CopyToDateTimeStringISO8601 : Z → result str)
    (GetFormattedField :
      str → EventObject → EventData → option EventDataStream →
      option EventTag → str)
    (RESERVED_VARIABLE_NAMES : list str) (repr : value → result str)
    ev ed eds tag t fv :
  GetFieldValues CopyToString CopyToDateTimeStringISO8601 GetFormattedField
    ev ed eds tag = Run t (OK fv) →
  (∀ k w, fv !! k = Some w → is_ignored w = false) ∧
  (∀ n v, (n, v) ∈ event_attributes ed eds → is_ignored v = true →
          fv !! n ≠ Some v) ∧
  (∀ n, n ∉ OWN_KEYS →
        (∀ v, (n, v) ∈ event_attributes ed eds → is_ignored v = true) →
        fv !! n = None) ∧
  ∃ items, sorted (map_to_list fv) = OK items ∧
    ∀ reserved additional line,
      attribute_lines RESERVED_VARIABLE_NAMES repr items
      = OK (reserved, additional) →
      line ∈ reserved ++ additional →
      ∃ k w, fv !! k = Some w ∧ is_ignored w = false ∧
             field_string repr k w = OK line.
Proof.
  intros Hrun.
  assert (∀ k w, fv !! k = Some w → is_ignored w = false) as Hvalues.
  { intros k w Hk.
    destruct (GetFieldValues_lookup _ _ _ _ _ _ _ _ _ _ _ Hrun Hk)
      as [(_ & tag' & _ & ->)|[(v & _ & Hst)|[(_ & s & ->)|(_ & ->)]]];
      [|by eapply stored_not_ignored|done..].
    by destruct (labels tag'). }
  split_and!; [done| | |].
  - intros n v _ Hv Hn. apply Hvalues in Hn. congruence.
  - intros n Hn Hall. destruct (fv !! n) as [w|] eqn:Hw; [|done].
    destruct (GetFieldValues_lookup _ _ _ _ _ _ _ _ _ _ _ Hrun Hw)
      as [(-> & _)|[(v & Hin & Hst)|[(Hk & _)|(Hk & _)]]].
    + destruct Hn. by_computation.
    + apply Hall, stored_None in Hin. congruence.
    + destruct Hn. unfold OWN_KEYS. set_solver.
    + destruct Hn. unfold OWN_KEYS. set_solver.
  - destruct (sorted_items fv) as [items Hitems]. exists items.
    split; [done|].
    intros reserved additional line Hattr Hline.
    destruct (attribute_line_inv _ _ _ _ _ _ Hattr Hline)
      as (k & w & Hin & _ & Hfield).
    apply (sorted_items_lookup _ _ _ _ Hitems) in Hin.
    exists k, w. split_and!; [done| |done]. by eapply Hvalues.
Qed.

Lemma C6_ignored_values_are_excluded_witness :
  let event_data :=
    {| data_type := u "test:event";
       event_data_attributes :=
         [(u "written", VDateTime {| normalized_timestamp := 5 |});
          (u "size", VInt 10)] |} in
  returned ∅ (sample_GetFieldValues event_data None None) !! u "written"
  = None.
Proof.
  intros event_data.
  pose (r := sample_GetFieldValues event_data None None).
  destruct (C6_ignored_values_are_excluded
              sample_CopyToString Dfdatetime.CopyToDateTimeStringISO8601
              no_fallback sample_reserved sample_repr
              sample_event event_data None None (trace r) (returned ∅ r))
    as (_ & _ & Habsent & _).
  - vm_compute. reflexivity.
  - apply Habsent.
    + by_computation.
    + intros v Hin. vm_compute in Hin.
      apply elem_of_cons in Hin as [Heq|Hin]; [by inversion Heq|].
      apply elem_of_cons in Hin as [Heq|Hin]; [by inversion Heq|].
      by apply elem_of_nil in Hin.
Defined.

(** ** C10: the five keys of every returned mapping *)



(** ** C9: when [WriteFieldValues] returns *)

(** C9, counterexample.  The mapping has the timestamp key and no path
    specification, so it is well-formed in the sense of the claim, but the
    value of the timestamp is the [int] 10: ['  {0:s}'.format(10)] raises
    [ValueError]. *)
Lemma C9_counterexample :
  let field_values : gmap str value := {[ u "_timestamp" := VInt 10 ]} in
  is_Some (field_values !! u "_timestamp") ∧
  field_values !! u "path_spec" = None ∧
  WriteFieldValues sample_reserved sample_repr field_values
  = Raise ValueError.
Proof. split_and!; [by_computation|by vm_compute..]. Qed.

(** C9, as amended.  [WriteFieldValues] returns a text for every mapping
    whose fields other than the four structural keys have values [str]
    converts (it does not convert an [int] of more than 4300 digits), whose
    [_timestamp] value is a [str], whose [path_spec] value, when present and
    true, is a path specification, and whose [_event_tag_labels] value, when
    present and true, is a sequence of [str]. *)
Theorem C9_returns_on_well_formed
    (RESERVED_VARIABLE_NAMES : list str) (repr : value → result str)
    (field_values : gmap str value) :
  well_formed repr field_values = true →
  ∃ text, WriteFieldValues RESERVED_VARIABLE_NAMES repr field_values
          = OK text.
Proof.
  intros [lines Hlines]%(lines_of_text_OK RESERVED_VARIABLE_NAMES repr).
  unfold WriteFieldValues. rewrite Hlines. by eexists.
Qed.

Lemma C9_returns_on_well_formed_witness :
  ∃ text,
    WriteFieldValues sample_reserved sample_repr
      (<[u "_event_tag_labels" := VList [VStr (u "a"); VStr (u "b")]]>
         (<[u "path_spec" := VPathSpec {| comparable := u "type: OS" |}]>
            (<[u "size" := VInt 10]>
               {[ u "_timestamp" := VStr (u "2024-01-01T00:00:00") ]})))
    = OK text.
Proof. apply C9_returns_on_well_formed. vm_compute. reflexivity. Defined.

(** ** C3: the path specification section *)

Lemma split_nonempty sep s : split sep s ≠ [].
Proof.
  destruct s as [|c s]; simpl; [done|].
  destruct (N.eqb c sep); [done|]. by destruct (split sep s).
Qed.

(** A text that ends with the separator splits into its lines and an empty
    last part. *)
Lemma split_snoc sep text : split sep (text ++ [sep]) = split sep text ++ [[]].
Proof.
  induction text as [|c text IH]; simpl.
  - by rewrite N.eqb_refl.
  - destruct (N.eqb c sep); [by rewrite IH|]. rewrite IH.
    pose proof (split_nonempty sep text).
    by destruct (split sep text).
Qed.

Lemma removelast_fmap {A B} (f : A → B) l :
  removelast (f <$> l) = f <$> removelast l.
Proof.
  induction l as [|x [|y l] IH]; [done..|].
  change (f x :: removelast (f <$> y :: l) = f x :: (f <$> removelast (y :: l))).
  by rewrite IH.
Qed.

Lemma pathspec_lines_path_spec fv p lines :
  fv !! u "path_spec" = Some (VPathSpec p) →
  pathspec_lines fv lines
  = OK (lines ++ [[]; u "[Pathspec]:"]
        ++ ((λ line, u "  " ++ line) <$> removelast (split LF (comparable p)))).
Proof.
  intros Hp. unfold pathspec_lines. rewrite Hp. cbn [truthy get_comparable].
  rewrite OK_bind. f_equal.
  rewrite !removelast_app, removelast_fmap; [done| |].
  - intros Heq%fmap_nil_inv. by apply split_nonempty in Heq.
  - intros Heq%app_eq_nil. by destruct Heq.
Qed.


(** ** C8: the sections are sorted by field name *)




(** ** C4: the end-to-end example *)

(** How the loop takes up one field. *)
Lemma attribute_lines_from_structural R repr reserved additional k v items :
  k ∈ STRUCTURAL_KEYS →
  attribute_lines_from R repr reserved additional ((k, v) :: items)
  = attribute_lines_from R repr reserved additional items.
Proof.
  intros Hk. cbn [attribute_lines_from].
  by rewrite (bool_decide_eq_true_2 _ Hk).
Qed.

Lemma attribute_lines_from_reserved
    R repr reserved additional k v line items :
  k ∉ STRUCTURAL_KEYS → k ∈ R → field_string repr k v = OK line →
  attribute_lines_from R repr reserved additional ((k, v) :: items)
  = attribute_lines_from R repr (reserved ++ [line]) additional items.
Proof.
  intros Hk Hr Hline. cbn [attribute_lines_from].
  rewrite (bool_decide_eq_false_2 _ Hk), Hline, OK_bind.
  by rewrite (bool_decide_eq_true_2 _ Hr).
Qed.

Lemma attribute_lines_from_additional
    R repr reserved additional k v line items :
  k ∉ STRUCTURAL_KEYS → k ∉ R → field_string repr k v = OK line →
  attribute_lines_from R repr reserved additional ((k, v) :: items)
  = attribute_lines_from R repr reserved (additional ++ [line]) items.
Proof.
  intros Hk Hr Hline. cbn [attribute_lines_from].
  rewrite (bool_decide_eq_false_2 _ Hk), Hline, OK_bind.
  by rewrite (bool_decide_eq_false_2 _ Hr).
Qed.

Lemma field_string_str repr k s :
  field_string repr k (VStr s) = OK (u "  {" ++ k ++ u "} " ++ s).
Proof. done. Qed.

Lemma field_string_int repr k z :
  (Z.abs z <? 10 ^ INT_MAX_STR_DIGITS)%Z = true →
  field_string repr k (VInt z) = OK (u "  {" ++ k ++ u "} " ++ str_of_int z).
Proof. intros Hz. unfold field_string, py_str. by rewrite Hz. Qed.

(** C4, counterexample.  With [display_name], [filename] and [inode] among
    the reserved names, as in plaso, and neither [size] nor [name_attr]
    reserved, the reserved section of the example is not empty: it lists the
    three well-known fields, which [GetFieldValues] always stores. *)
Lemma C4_counterexample :
  let event_data :=
    {| data_type := u "test:event";
       event_data_attributes :=
         [(u "size", VInt 10); (u "name_attr", VStr (u "x"))] |} in
  (u "size" ∉ sample_reserved) ∧ (u "name_attr" ∉ sample_reserved) ∧
  WriteFieldValues sample_reserved sample_repr
    (returned ∅ (sample_GetFieldValues event_data None None))
  = OK (join [LF]
          [SEPARATOR;
           u "[Timestamp]:";
           u "  2024-01-01T00:00:00.000000+00:00";
           [];
           u "[Reserved attributes]:";
           u "  {display_name} ";
           u "  {filename} ";
           u "  {inode} ";
           [];
           u "[Additional attributes]:";
           u "  {name_attr} x";
           u "  {size} 10";
           []]).
Proof. split_and!; [by_computation..|by vm_compute]. Qed.

(** C4, as amended.  For the record of the example the output is the
    separator line, [[Timestamp]:] and the timestamp, a
    [[Reserved attributes]:] section with the lines of those of
    [display_name], [filename] and [inode] that are reserved names, and an
    [[Additional attributes]:] section with the lines of the others of
    these three, then the line of [name_attr] and then the line of [size];
    the values of the three are the empty strings of the helper. *)
Theorem C4_end_to_end
    (CopyToString : AttributeContainerIdentifier → result str)
    (CopyToDateTimeStringISO8601 : Z → result str)
    (GetFormattedField :
      str → EventObject → EventData → option EventDataStream →
      option EventTag → str)
    (RESERVED_VARIABLE_NAMES : list str) (repr : value → result str)
    ev ed ids :
  CopyToString (GetIdentifier ev) = OK ids →
  CopyToDateTimeStringISO8601 (timestamp ev)
    = OK (u "2024-01-01T00:00:00.000000+00:00") →
  GetAttributes ed = [(u "size", VInt 10); (u "name_attr", VStr (u "x"))] →
  (∀ field_name, GetFormattedField field_name ev ed None None = []) →
  u "size" ∉ RESERVED_VARIABLE_NAMES →
  u "name_attr" ∉ RESERVED_VARIABLE_NAMES →
  ∃ fv,
    outcome (GetFieldValues CopyToString CopyToDateTimeStringISO8601
               GetFormattedField ev ed None None) = OK fv ∧
    WriteFieldValues RESERVED_VARIABLE_NAMES repr fv
    = OK (join [LF]
            ([SEPARATOR;
              u "[Timestamp]:";
              u "  2024-01-01T00:00:00.000000+00:00";
              [];
              u "[Reserved attributes]:"]
             ++ ((λ name, u "  {" ++ name ++ u "} ")
                   <$> filter (λ name, name ∈ RESERVED_VARIABLE_NAMES)
                         [u "display_name"; u "filename"; u "inode"])
             ++ [[]; u "[Additional attributes]:"]
             ++ ((λ name, u "  {" ++ name ++ u "} ")
                   <$> filter (λ name, name ∉ RESERVED_VARIABLE_NAMES)
                         [u "display_name"; u "filename"; u "inode"])
             ++ [u "  {name_attr} x"; u "  {size} 10"; []])).
Proof.
  intros Hids Hts Hattrs Hhelper Hsize Hname.
  rewrite GetFieldValues_unfold, Hids, Hts.
  unfold event_attributes. rewrite Hattrs, app_nil_r.
  replace (sorted [(u "size", VInt 10); (u "name_attr", VStr (u "x"))])
    with (OK [(u "name_attr", VStr (u "x")); (u "size", VInt 10)])
    by by vm_compute.
  cbn [outcome with_tag]. rewrite !Hhelper.
  eexists. split; [done|].
  unfold WriteFieldValues, lines_of_text.
  replace (sorted (map_to_list _))
    with (OK [(u "_event_identifier", VStr ids);
              (u "_timestamp", VStr (u "2024-01-01T00:00:00.000000+00:00"));
              (u "display_name", VStr []);
              (u "filename", VStr []);
              (u "inode", VStr []);
              (u "name_attr", VStr (u "x"));
              (u "size", VInt 10)])
    by by vm_compute.
  rewrite OK_bind.
  replace (_ !! u "_timestamp")
    with (Some (VStr (u "2024-01-01T00:00:00.000000+00:00")))
    by by vm_compute.
  unfold pathspec_lines, tag_lines.
  replace (_ !! u "path_spec") with (@None value) by by vm_compute.
  replace (_ !! u "_event_tag_labels") with (@None value) by by vm_compute.
  unfold attribute_lines.
  destruct (decide (u "display_name" ∈ RESERVED_VARIABLE_NAMES));
    destruct (decide (u "filename" ∈ RESERVED_VARIABLE_NAMES));
    destruct (decide (u "inode" ∈ RESERVED_VARIABLE_NAMES));
    repeat first
      [ rewrite attribute_lines_from_structural by by_computation
      | erewrite attribute_lines_from_reserved
          by first [ assumption | by_computation | apply field_string_str
                   | apply field_string_int; vm_compute; reflexivity ]
      | erewrite attribute_lines_from_additional
          by first [ assumption | by_computation | apply field_string_str
                   | apply field_string_int; vm_compute; reflexivity ]
      | rewrite filter_cons_True by assumption
      | rewrite filter_cons_False by tauto
      | rewrite filter_nil ];
    cbn [attribute_lines_from format_s]; rewrite !OK_bind;
    vm_compute; reflexivity.
Qed.

Lemma C4_end_to_end_witness :
  ∃ fv,
    outcome
      (sample_GetFieldValues
         {| data_type := u "test:event";
            event_data_attributes :=
              [(u "size", VInt 10); (u "name_attr", VStr (u "x"))] |}
         None None) = OK fv ∧
    WriteFieldValues [u "filename"] sample_repr fv
    = OK (join [LF]
            [SEPARATOR;
             u "[Timestamp]:";
             u "  2024-01-01T00:00:00.000000+00:00";
             [];
             u "[Reserved attributes]:";
             u "  {filename} ";
             [];
             u "[Additional attributes]:";
             u "  {display_name} ";
             u "  {inode} ";
             u "  {name_attr} x";
             u "  {size} 10";
             []]).
Proof.
  destruct (C4_end_to_end
              sample_CopyToString Dfdatetime.CopyToDateTimeStringISO8601
              no_fallback [u "filename"] sample_repr sample_event
              {| data_type := u "test:event";
                 event_data_attributes :=
                   [(u "size", VInt 10); (u "name_attr", VStr (u "x"))] |}
              (u "event.1"))
    as (fv & Hfv & Htext).
  - by vm_compute.
  - by vm_compute.
  - reflexivity.
  - reflexivity.
  - by_computation.
  - by_computation.
  - exists fv. split; [done|]. rewrite Htext. by vm_compute.
Defined.

(** ** C1: two attributes of one name *)

Lemma stored_Some v : is_ignored v = false → is_Some (stored v).
Proof.
  intros Hv. destruct (stored v) eqn:Hst; [done|].
  apply stored_None in Hst. congruence.
Qed.

Lemma named_fresh n l : n ∉ l.*1 → named n l = [].
Proof.
  intros Hn. apply elem_of_nil_inv. intros a [Ha Hin]%list_elem_of_filter.
  apply Hn. rewrite <-Ha. by apply list_elem_of_fmap_2.
Qed.

(** A container yields one attribute of a name. *)
Lemma named_NoDup n v l :
  NoDup l.*1 → (n, v) ∈ l → named n l = [(n, v)].
Proof.
  induction l as [|a l IH]; intros Hnd Hin; [by apply elem_of_nil in Hin|].
  rewrite fmap_cons in Hnd. apply NoDup_cons in Hnd as [Ha Hnd].
  apply elem_of_cons in Hin as [<-|Hin].
  - unfold named. rewrite filter_cons_True by done.
    fold (named n l). by rewrite named_fresh.
  - unfold named. rewrite filter_cons_False.
    + by apply IH.
    + intros Heq. apply Ha. rewrite Heq.
      by apply (list_elem_of_fmap_2 fst l (n, v)).
Qed.

Lemma named_Permutation n l l' : l ≡ₚ l' → named n l ≡ₚ named n l'.
Proof. intros Hl. unfold named. by rewrite Hl. Qed.

(** C1, counterexample.  The event data carries [x = 'b'] and the stream
    [x = 'a'].  [sorted] puts [('x', 'a')] before [('x', 'b')], the loop
    writes ['a'] and then ['b'], and the mapping holds ['b'], the value of the
    event data, not the value of the stream. *)
Lemma C1_counterexample :
  returned ∅
    (sample_GetFieldValues
       {| data_type := u "test:event";
          event_data_attributes := [(u "x", VStr (u "b"))] |}
       (Some {| event_data_stream_attributes := [(u "x", VStr (u "a"))] |})
       None) !! u "x"
  = Some (VStr (u "b")).
Proof. by vm_compute. Qed.

(** C1, as amended.  When the event data and its stream both carry an
    attribute called [n], with values the loop stores, the attributes are
    sorted as [(name, value)] tuples before they are written and the last
    write wins: the mapping holds the value of the stream unless [sorted]
    finds it less than the value of the event data, and then it holds the
    value of the event data (a bytes value decoded). *)
Theorem C1_last_sorted_write_wins
    (CopyToString : AttributeContainerIdentifier → result str)
    (CopyToDateTimeStringISO8601 : Z → result str)
    (GetFormattedField :
      str → EventObject → EventData → option EventDataStream →
      option EventTag → str)
    ev ed eds tag n v1 v2 t fv :
  NoDup (GetAttributes ed).*1 → NoDup (GetAttributes eds).*1 →
  (n, v1) ∈ GetAttributes ed → (n, v2) ∈ GetAttributes eds →
  is_ignored v1 = false → is_ignored v2 = false →
  (n = u "_event_tag_labels" → tag = None) →
  GetFieldValues CopyToString CopyToDateTimeStringISO8601 GetFormattedField
    ev ed (Some eds) tag = Run t (OK fv) →
  ∃ less : bool,
    tuple_lt (n, v2) (n, v1) = OK less ∧
    fv !! n = stored (if less then v1 else v2).
Proof.
  intros Hnd1 Hnd2 Hin1 Hin2 Hv1 Hv2 Htag
    (ids & ts & l & _ & _ & Hl & -> & _)%GetFieldValues_OK.
  cbn zeta.
  pose proof (sorted_named n _ _ Hl) as Hnamed.
  unfold event_attributes, named in Hnamed. rewrite filter_app in Hnamed.
  fold (named n (GetAttributes ed)) (named n (GetAttributes eds))
       (named n l) in Hnamed.
  rewrite (named_NoDup n v1), (named_NoDup n v2) in Hnamed by done.
  cbn in Hnamed.
  destruct (tuple_lt (n, v2) (n, v1)) as [less|] eqn:Hlt; [|done].
  exists less. split; [done|].
  assert (foldl write (seed ids ts) l !! n
          = stored (if less then v1 else v2)) as Hloop.
  { rewrite (foldl_write_named n _ (seed ids ts)) by done.
    destruct (stored_Some v1 Hv1) as [w1 Hw1].
    destruct (stored_Some v2 Hv2) as [w2 Hw2].
    destruct less; cbn in Hnamed; injection Hnamed as <-;
      cbn; unfold write; cbn; rewrite Hw1, Hw2;
      by rewrite lookup_insert_eq. }
  destruct (stored_Some (if less then v1 else v2)) as [w Hw];
    [by destruct less|].
  rewrite Hw in Hloop |- *.
  assert (with_tag tag
            (with_default (u "inode")
               (GetFormattedField (u "inode") ev ed (Some eds) tag)
               (with_default (u "filename")
                  (GetFormattedField (u "filename") ev ed (Some eds) tag)
                  (with_default (u "display_name")
                     (GetFormattedField (u "display_name") ev ed (Some eds)
                        tag)
                     (foldl write (seed ids ts) l)))) !! n
          = with_default (u "inode")
              (GetFormattedField (u "inode") ev ed (Some eds) tag)
              (with_default (u "filename")
                 (GetFormattedField (u "filename") ev ed (Some eds) tag)
                 (with_default (u "display_name")
                    (GetFormattedField (u "display_name") ev ed (Some eds)
                       tag)
                    (foldl write (seed ids ts) l))) !! n) as ->.
  { destruct tag as [tag'|]; [|done]. unfold with_tag.
    rewrite lookup_insert_ne; [done|]. intros Heq. by specialize (Htag (eq_sym Heq)). }
  by do 3 apply with_default_lookup_Some.
Qed.

Lemma C1_last_sorted_write_wins_witness :
  ∃ less : bool,
    tuple_lt (u "x", VStr (u "b")) (u "x", VStr (u "a")) = OK less ∧
    returned ∅
      (sample_GetFieldValues
         {| data_type := u "test:event";
            event_data_attributes := [(u "x", VStr (u "a"))] |}
         (Some {| event_data_stream_attributes := [(u "x", VStr (u "b"))] |})
         None) !! u "x"
    = stored (if less then VStr (u "a") else VStr (u "b")).
Proof.
  pose (ed := {| data_type := u "test:event";
                 event_data_attributes := [(u "x", VStr (u "a"))] |}).
  pose (eds := {| event_data_stream_attributes :=
                    [(u "x", VStr (u "b"))] |}).
  pose (r := sample_GetFieldValues ed (Some eds) None).
  apply (C1_last_sorted_write_wins
           sample_CopyToString Dfdatetime.CopyToDateTimeStringISO8601
           no_fallback sample_event ed eds None (u "x")
           (VStr (u "a")) (VStr (u "b")) (trace r)).
  - by_computation.
  - by_computation.
  - vm_compute. left.
  - vm_compute. left.
  - reflexivity.
  - reflexivity.
  - done.
  - vm_compute. reflexivity.
Defined.

(** ** C7: bytes values *)

Lemma warnings_fresh n dt l :
  n ∉ l.*1 → filter (names_attribute n) (l ≫= warnings_of dt) = [].
Proof.
  intros Hn. apply elem_of_nil_inv. intros e [He Hin]%list_elem_of_filter.
  apply list_elem_of_bind in Hin as (a & Hin & Ha).
  unfold warnings_of in Hin. apply Hn.
  destruct a as [k v]. destruct v; try by apply elem_of_nil in Hin.
  apply list_elem_of_singleton in Hin as ->. simpl in He. subst k.
  by apply (list_elem_of_fmap_2 fst l (n, VBytes b)).
Qed.

(** One warning for the bytes attribute [n], when no other attribute is
    called [n]. *)
Lemma warnings_NoDup n b dt l :
  NoDup l.*1 → (n, VBytes b) ∈ l →
  filter (names_attribute n) (l ≫= warnings_of dt)
  = [Warning n dt (Utf8.decode b)].
Proof.
  induction l as [|a l IH]; intros Hnd Hin; [by apply elem_of_nil in Hin|].
  rewrite fmap_cons in Hnd. apply NoDup_cons in Hnd as [Ha Hnd].
  rewrite bind_cons, filter_app.
  apply elem_of_cons in Hin as [<-|Hin].
  - cbn [fst] in Ha. rewrite warnings_fresh, app_nil_r by done.
    unfold warnings_of. cbn [fst snd]. by rewrite filter_cons_True.
  - rewrite IH by done.
    replace (filter (names_attribute n) (warnings_of dt a))
      with (@nil effect); [done|].
    symmetry. apply elem_of_nil_inv. intros e [He Hin']%list_elem_of_filter.
    apply Ha. destruct a as [k v]. unfold warnings_of in Hin'.
    destruct v; try by apply elem_of_nil in Hin'.
    apply list_elem_of_singleton in Hin' as ->. simpl in He. subst k.
    by apply (list_elem_of_fmap_2 fst l (n, VBytes b)).
Qed.

Lemma warnings_default_call n f fv :
  filter (names_attribute n) (default_call f fv) = [].
Proof. unfold default_call. by destruct (fv !! f). Qed.

(** A field that is not structural and whose value has a [str] has no
    part in whether [WriteFieldValues] returns. *)
Lemma well_formed_delete repr n fv :
  n ∉ STRUCTURAL_KEYS →
  (∀ v, fv !! n = Some v → has_str repr v = true) →
  well_formed repr (delete n fv) = true ↔ well_formed repr fv = true.
Proof.
  intros Hn Hv. unfold well_formed.
  rewrite !andb_true_iff, !renders_lookup.
  rewrite !lookup_delete_ne by (intros ->; apply Hn; by_computation).
  assert ((∀ k v, delete n fv !! k = Some v → k ∉ STRUCTURAL_KEYS →
                  has_str repr v = true)
          ↔ (∀ k v, fv !! k = Some v → k ∉ STRUCTURAL_KEYS →
                    has_str repr v = true)) as ->; [|done].
  split.
  - intros Hall k v Hk Hs. destruct (decide (k = n)) as [->|Hne].
    + by apply Hv.
    + apply (Hall k v); [|done]. by rewrite lookup_delete_ne.
  - intros Hall k v [_ Hk]%lookup_delete_Some Hs. by apply (Hall k v).
Qed.

Lemma WriteFieldValues_OK R repr fv :
  well_formed repr fv = true ↔ ∃ text, WriteFieldValues R repr fv = OK text.
Proof.
  rewrite (lines_of_text_OK R repr). unfold WriteFieldValues. split.
  - intros [lines ->]. by eexists.
  - intros [text (lines & Hlines & _)%bind_OK]. by eexists.
Qed.

(** C7, counterexample.  The event data carries the bytes value [x = b'a']
    and the stream the text [x = 'b'].  The identifier and the timestamp
    materialize, but [sorted] compares the two tuples, asks ['b' < b'a'],
    and that raises [TypeError]: the bytes value keeps [GetFieldValues] from
    returning, and there is no warning. *)
Lemma C7_counterexample :
  let r :=
    sample_GetFieldValues
      {| data_type := u "test:event";
         event_data_attributes := [(u "x", VBytes [x61])] |}
      (Some {| event_data_stream_attributes := [(u "x", VStr (u "b"))] |})
      None in
  outcome r = Raise TypeError ∧ trace r = [].
Proof. split; by vm_compute. Qed.

(** C7, as amended.  For a record whose identifier and timestamp
    materialize and whose attribute names are pairwise distinct, and for
    every attribute with a bytes value whose name is none of the four
    structural keys: [GetFieldValues] returns, stores under the name the
    value decoded as UTF-8 with U+FFFD for what is ill-formed, and logs
    exactly one warning about this attribute, with its name, the data type
    of the event data and the decoded text; the field has no part in whether
    [WriteFieldValues] returns, and its line is among the lines of the
    output; a bytes value that is the UTF-8 encoding of a text is stored as
    that text. *)
Theorem C7_bytes_are_decoded
    (CopyToString : AttributeContainerIdentifier → result str)
    (CopyToDateTimeStringISO8601 : Z → result str)
    (GetFormattedField :
      str → EventObject → EventData → option EventDataStream →
      option EventTag → str)
    (RESERVED_VARIABLE_NAMES : list str) (repr : value → result str)
    ev ed eds tag ids ts n b :
  CopyToString (GetIdentifier ev) = OK ids →
  CopyToDateTimeStringISO8601 (timestamp ev) = OK ts →
  NoDup (event_attributes ed eds).*1 →
  (n, VBytes b) ∈ event_attributes ed eds →
  n ∉ STRUCTURAL_KEYS →
  ∃ t fv,
    GetFieldValues CopyToString CopyToDateTimeStringISO8601
      GetFormattedField ev ed eds tag = Run t (OK fv) ∧
    fv !! n = Some (VStr (Utf8.decode b)) ∧
    filter (names_attribute n) t
      = [Warning n (data_type ed) (Utf8.decode b)] ∧
    ((∃ text, WriteFieldValues RESERVED_VARIABLE_NAMES repr fv = OK text) ↔
     (∃ text, WriteFieldValues RESERVED_VARIABLE_NAMES repr (delete n fv)
              = OK text)) ∧
    (∀ lines,
       lines_of_text RESERVED_VARIABLE_NAMES repr fv = OK lines →
       u "  {" ++ n ++ u "} " ++ Utf8.decode b ∈ lines) ∧
    (∀ s, Forall (λ c, Utf8.is_scalar c = true) s → b = Utf8.encode s →
          fv !! n = Some (VStr s)).
Proof.
  intros Hids Hts Hnd Hin Hn.
  rewrite GetFieldValues_unfold, Hids, Hts.
  destruct (sorted_total _ Hnd) as [l Hl]. rewrite Hl. cbn zeta.
  eexists _, _. split; [done|].
  assert (l ≡ₚ event_attributes ed eds) as Hperm
    by by apply sorted_Permutation.
  assert (n ≠ u "_event_tag_labels") as Hlabels.
  { intros ->. apply Hn. by_computation. }
  match goal with |- ?m !! n = _ ∧ _ =>
    assert (m !! n = Some (VStr (Utf8.decode b))) as Hlookup end.
  { unfold with_tag. destruct tag; [rewrite lookup_insert_ne by done|];
      do 3 apply with_default_lookup_Some;
      rewrite (foldl_write_named n _ (seed ids ts)) by done;
      rewrite (named_NoDup n (VBytes b)) by (by rewrite Hperm);
      cbn; unfold write; cbn; by rewrite lookup_insert_eq. }
  split_and!.
  - done.
  - rewrite !filter_app, !warnings_default_call, !app_nil_r.
    apply warnings_NoDup; by rewrite Hperm.
  - rewrite <-!WriteFieldValues_OK. symmetry. apply well_formed_delete.
    + done.
    + intros v Hv. rewrite Hlookup in Hv. by injection Hv as <-.
  - intros lines Hlines.
    destruct (lines_of_text_field_line RESERVED_VARIABLE_NAMES repr _ lines
                n (VStr (Utf8.decode b)) Hlines Hlookup Hn)
      as (line & Hline & Hline_in).
    rewrite field_string_str in Hline. by injection Hline as <-.
  - intros s Hs ->. by rewrite Hlookup, Utf8_facts.decode_encode.
Qed.

Lemma C7_bytes_are_decoded_witness :
  ∃ t fv,
    sample_GetFieldValues
      {| data_type := u "test:event";
         event_data_attributes :=
           [(u "size", VInt 10); (u "comment", VBytes [xe2; x82; xac; xff])] |}
      None None = Run t (OK fv) ∧
    fv !! u "comment" = Some (VStr [0x20AC; 0xFFFD]%N) ∧
    filter (names_attribute (u "comment")) t
    = [Warning (u "comment") (u "test:event") [0x20AC; 0xFFFD]%N].
Proof.
  destruct (C7_bytes_are_decoded
              sample_CopyToString Dfdatetime.CopyToDateTimeStringISO8601
              no_fallback sample_reserved sample_repr sample_event
              {| data_type := u "test:event";
                 event_data_attributes :=
                   [(u "size", VInt 10);
                    (u "comment", VBytes [xe2; x82; xac; xff])] |}
              None None (u "event.1")
              (u "2024-01-01T00:00:00.000000+00:00")
              (u "comment") [xe2; x82; xac; xff])
    as (t & fv & Hrun & Hlookup & Hwarn & _).
  - by vm_compute.
  - by vm_compute.
  - by_computation.
  - vm_compute. right. left.
  - by_computation.
  - exists t, fv. split_and!; [done| |].
    + rewrite Hlookup. by vm_compute.
    + rewrite Hwarn. by vm_compute.
Defined.

(** * Further properties of [GetFieldValues] *)

Lemma warnings_of_is_warning dt l : Forall is_warning (l ≫= warnings_of dt).
Proof.
  apply Forall_forall. intros e (a & Hin & _)%list_elem_of_bind.
  unfold warnings_of in Hin. destruct a.2; try by apply elem_of_nil in Hin.
  by apply list_elem_of_singleton in Hin as ->.
Qed.

Lemma filter_all {A} (P : A → Prop) `{!∀ x, Decision (P x)} l :
  Forall P l → filter P l = l.
Proof.
  induction 1 as [|x l Hx _ IH]; [done|].
  by rewrite filter_cons_True, IH.
Qed.

Lemma filter_none {A} (P : A → Prop) `{!∀ x, Decision (P x)} l :
  Forall (λ x, ¬ P x) l → filter P l = [].
Proof.
  induction 1 as [|x l Hx _ IH]; [done|].
  by rewrite filter_cons_False, IH.
Qed.

Lemma default_call_is_formatted f fv : Forall is_formatted (default_call f fv).
Proof. unfold default_call. destruct (fv !! f); by repeat constructor. Qed.

Lemma stored_names_elem n l :
  n ∈ stored_names l ↔ ∃ v, (n, v) ∈ l ∧ is_ignored v = false.
Proof.
  unfold stored_names. rewrite list_elem_of_fmap. split.
  - intros ([k v] & -> & [Hv Hin]%list_elem_of_filter). by exists v.
  - intros (v & Hin & Hv). exists (n, v). split; [done|].
    by apply list_elem_of_filter.
Qed.

Lemma stored_names_Permutation l l' :
  l ≡ₚ l' → stored_names l ≡ₚ stored_names l'.
Proof. intros Hl. unfold stored_names. by rewrite Hl. Qed.

(** After the loop a name is bound when it was bound before or an attribute
    of this name was stored. *)
Lemma foldl_write_is_Some_iff n fv l :
  is_Some (foldl write fv l !! n) ↔ is_Some (fv !! n) ∨ n ∈ stored_names l.
Proof.
  split.
  - intros [w [Hw|(v & Hin & Hst)]%foldl_write_lookup]; [by left; eexists|].
    right. apply stored_names_elem. exists v. split; [done|].
    destruct (is_ignored v) eqn:Hv; [|done].
    apply stored_None in Hv. congruence.
  - intros [Hfv|(v & Hin & Hv)%stored_names_elem].
    + by apply foldl_write_is_Some.
    + destruct (stored v) as [w|] eqn:Hst.
      * by eapply foldl_write_stored.
      * apply stored_None in Hst. congruence.
Qed.

Section GetFieldValues_more.

Context (CopyToString : AttributeContainerIdentifier → result str).
Context (CopyToDateTimeStringISO8601 : Z → result str).
Context (GetFormattedField :
  str → EventObject → EventData → option EventDataStream →
  option EventTag → str).

Local Abbreviation GetFieldValues :=
  (GetFieldValues CopyToString CopyToDateTimeStringISO8601
     GetFormattedField).

(** X1.  When [GetFieldValues] raises, nothing was logged and the helper was
    not called, and the exception is that of the identifier, or, the
    identifier having materialized, that of the date and time string, or,
    both having materialized, that of [sorted]. *)
Theorem GetFieldValues_raises ev ed eds tag e :
  outcome (GetFieldValues ev ed eds tag) = Raise e →
  trace (GetFieldValues ev ed eds tag) = [] ∧
  (CopyToString (GetIdentifier ev) = Raise e ∨
   (∃ ids, CopyToString (GetIdentifier ev) = OK ids) ∧
   (CopyToDateTimeStringISO8601 (timestamp ev) = Raise e ∨
    (∃ ts, CopyToDateTimeStringISO8601 (timestamp ev) = OK ts) ∧
    sorted (event_attributes ed eds) = Raise e)).
Proof.
  rewrite GetFieldValues_unfold.
  destruct (CopyToString _) as [ids|e1]; [|intros [= ->]; by auto].
  destruct (CopyToDateTimeStringISO8601 _) as [ts|e2];
    [|intros [= ->]; split; [done|]; right; split; [by eexists|by left]].
  destruct (sorted _) as [l|e3]; [done|].
  intros [= ->]. split; [done|]. right. split; [by eexists|].
  right. split; [by eexists|done].
Qed.

(** X2.  With attribute names that are pairwise distinct, the order in
    which the containers yield their attributes, and the container an
    attribute comes from, have no effect on the run: the same attributes
    give the same field values, warnings and helper calls. *)
Theorem GetFieldValues_attribute_order ev ed ed' eds eds' tag :
  NoDup (event_attributes ed eds).*1 →
  event_attributes ed eds ≡ₚ event_attributes ed' eds' →
  data_type ed = data_type ed' →
  (∀ field_name,
     GetFormattedField field_name ev ed eds tag
     = GetFormattedField field_name ev ed' eds' tag) →
  GetFieldValues ev ed eds tag = GetFieldValues ev ed' eds' tag.
Proof.
  intros Hnd Hperm Hdt Hhelper. rewrite !GetFieldValues_unfold.
  destruct (sorted_total _ Hnd) as [l Hl].
  rewrite (sorted_unique _ _ _ Hnd Hperm Hl), Hl, Hdt, !Hhelper. done.
Qed.

(** X3.  A run that returns logged one warning for each attribute with a
    bytes value and none for any other attribute, in the order of the
    attributes sorted by name. *)
Theorem GetFieldValues_warnings ev ed eds tag t fv :
  GetFieldValues ev ed eds tag = Run t (OK fv) →
  ∃ l,
    sorted (event_attributes ed eds) = OK l ∧
    l ≡ₚ event_attributes ed eds ∧
    StronglySorted name_le l ∧
    filter is_warning t = l ≫= warnings_of (data_type ed) ∧
    filter is_warning t
      ≡ₚ event_attributes ed eds ≫= warnings_of (data_type ed).
Proof.
  intros (ids & ts & l & _ & _ & Hl & _ & ->)%GetFieldValues_OK.
  exists l. split; [done|].
  split; [by apply sorted_Permutation|].
  split; [by eapply sorted_name_sorted|].
  assert (filter is_warning
            ((l ≫= warnings_of (data_type ed))
             ++ default_call (u "display_name") (foldl write (seed ids ts) l)
             ++ default_call (u "filename")
                  (with_default (u "display_name")
                     (GetFormattedField (u "display_name") ev ed eds tag)
                     (foldl write (seed ids ts) l))
             ++ default_call (u "inode")
                  (with_default (u "filename")
                     (GetFormattedField (u "filename") ev ed eds tag)
                     (with_default (u "display_name")
                        (GetFormattedField (u "display_name") ev ed eds tag)
                        (foldl write (seed ids ts) l))))
          = l ≫= warnings_of (data_type ed)) as ->.
  { rewrite !filter_app.
    rewrite (filter_all is_warning) by apply warnings_of_is_warning.
    rewrite !(filter_none is_warning), !app_nil_r; [done|..];
      (eapply Forall_impl; [apply default_call_is_formatted|]);
      intros [] ?; simpl in *; tauto. }
  split; [done|]. by rewrite (sorted_Permutation _ _ Hl).
Qed.

(** X4.  A run that returns called the helper once for each of
    [display_name], [filename] and [inode] that no stored attribute is
    called, in this order, and for nothing else. *)
Theorem GetFieldValues_helper_calls ev ed eds tag t fv :
  GetFieldValues ev ed eds tag = Run t (OK fv) →
  filter is_formatted t
  = Formatted
      <$> filter (λ f, f ∉ stored_names (event_attributes ed eds)) WELL_KNOWN.
Proof.
  intros (ids & ts & l & _ & _ & Hl & _ & ->)%GetFieldValues_OK.
  rewrite !filter_app.
  rewrite (filter_none is_formatted), app_nil_l.
  2:{ eapply Forall_impl; [apply warnings_of_is_warning|].
      intros [] ?; simpl in *; tauto. }
  rewrite !(filter_all is_formatted) by apply default_call_is_formatted.
  assert (∀ f, f ∈ WELL_KNOWN →
            ∀ fv', (∀ w, fv' !! f = Some w ↔
                         foldl write (seed ids ts) l !! f = Some w) →
            default_call f fv'
            = if decide (f ∉ stored_names (event_attributes ed eds))
              then [Formatted f] else []) as Hcall.
  { intros f Hf fv' Hfv'. unfold default_call.
    assert (is_Some (fv' !! f)
            ↔ f ∈ stored_names (event_attributes ed eds)) as Hiff.
    { rewrite <-(stored_names_Permutation _ _ (sorted_Permutation _ _ Hl)).
      transitivity (is_Some (foldl write (seed ids ts) l !! f)).
      { unfold is_Some. by setoid_rewrite Hfv'. }
      rewrite foldl_write_is_Some_iff. split; [|by right].
      intros [[w [[Hk _]|[Hk _]]%seed_lookup]|?]; [| |done];
        subst f; exfalso; revert Hf; by_computation. }
    destruct (fv' !! f) eqn:Hlook.
    - rewrite decide_False; [done|]. intros Hn. apply Hn, Hiff. by eexists.
    - rewrite decide_True; [done|]. intros Hin%Hiff. by destruct Hin. }
  rewrite (Hcall (u "display_name")), (Hcall (u "filename")),
    (Hcall (u "inode")).
  - unfold WELL_KNOWN. rewrite !filter_cons, filter_nil.
    by repeat case_decide.
  - by_computation.
  - intros w. rewrite 2!with_default_lookup_ne by literals_differ. done.
  - by_computation.
  - intros w. rewrite with_default_lookup_ne by literals_differ. done.
  - by_computation.
  - done.
Qed.

End GetFieldValues_more.

Lemma with_tag_lookup_ne tag fv k :
  k ≠ u "_event_tag_labels" → with_tag tag fv !! k = fv !! k.
Proof.
  intros Hk. unfold with_tag. destruct tag; [|done].
  by rewrite lookup_insert_ne.
Qed.

Lemma with_tag_is_Some tag fv k :
  is_Some (fv !! k) → is_Some (with_tag tag fv !! k).
Proof.
  intros Hk. unfold with_tag. destruct tag; [|done].
  destruct (decide (u "_event_tag_labels" = k)) as [<-|Hne].
  - by rewrite lookup_insert_eq.
  - by rewrite lookup_insert_ne.
Qed.

Lemma with_default_preserves f x fv k :
  is_Some (fv !! k) → is_Some (with_default f x fv !! k).
Proof. intros [w Hw]. exists w. by apply with_default_lookup_Some. Qed.

Lemma seed_lookup_None ids ts k :
  k ∉ [u "_event_identifier"; u "_timestamp"] → seed ids ts !! k = None.
Proof.
  intros Hk. destruct (seed ids ts !! k) as [w|] eqn:Hw; [|done].
  destruct Hk. apply seed_lookup in Hw as [[-> _]|[-> _]]; set_solver.
Qed.

Lemma with_default_lookup_None f x fv :
  fv !! f = None → with_default f x fv !! f = Some (VStr x).
Proof.
  intros Hf. unfold with_default. by rewrite Hf, lookup_insert_eq.
Qed.

Section GetFieldValues_values.

Context (CopyToString : AttributeContainerIdentifier → result str).
Context (CopyToDateTimeStringISO8601 : Z → result str).
Context (GetFormattedField :
  str → EventObject → EventData → option EventDataStream →
  option EventTag → str).

Local Abbreviation GetFieldValues :=
  (GetFieldValues CopyToString CopyToDateTimeStringISO8601
     GetFormattedField).

(** X5.  The keys of a returned mapping are the two seeds, the three
    well-known fields, the names of the attributes the loop stores and, when
    there is a tag, the key of its labels; there is no other key. *)
Theorem GetFieldValues_keys_iff ev ed eds tag t fv k :
  GetFieldValues ev ed eds tag = Run t (OK fv) →
  is_Some (fv !! k) ↔
    k ∈ [u "_event_identifier"; u "_timestamp"] ++ WELL_KNOWN ∨
    k ∈ stored_names (event_attributes ed eds) ∨
    (k = u "_event_tag_labels" ∧ is_Some tag).
Proof.
  intros Hrun. split.
  - intros [w Hw].
    destruct (GetFieldValues_lookup _ _ _ _ _ _ _ _ _ _ _ Hrun Hw)
      as [(-> & tag' & -> & _)|[(v & Hin & Hst)|[(Hk & _)|(Hk & _)]]].
    + right. right. by split.
    + right. left. apply stored_names_elem. exists v. split; [done|].
      destruct (is_ignored v) eqn:Hv; [|done].
      apply stored_None in Hv. congruence.
    + left. apply elem_of_app. by left.
    + left. apply elem_of_app. by right.
  - intros [Hk|[Hk|[-> [tag' ->]]]].
    + eapply GetFieldValues_keys; [done|exact Hk].
    + apply GetFieldValues_OK in Hrun
        as (ids & ts & l & _ & _ & Hl & -> & _).
      apply with_tag_is_Some. do 3 apply with_default_preserves.
      apply foldl_write_is_Some_iff. right.
      by rewrite (stored_names_Permutation _ _ (sorted_Permutation _ _ Hl)).
    + apply GetFieldValues_OK in Hrun
        as (ids & ts & l & _ & _ & Hl & -> & _).
      unfold with_tag. by rewrite lookup_insert_eq.
Qed.

(** X6.  With attribute names that are pairwise distinct, every attribute
    the loop stores is read back under its name, in its stored form: it
    takes precedence over the seeds and over the helper.  Only the labels of
    a tag replace an attribute, the one of their name. *)
Theorem GetFieldValues_attribute_lookup ev ed eds tag t fv n v w :
  NoDup (event_attributes ed eds).*1 →
  (n, v) ∈ event_attributes ed eds →
  stored v = Some w →
  (n = u "_event_tag_labels" → tag = None) →
  GetFieldValues ev ed eds tag = Run t (OK fv) →
  fv !! n = Some w.
Proof.
  intros Hnd Hin Hst Htag
    (ids & ts & l & _ & _ & Hl & -> & _)%GetFieldValues_OK.
  cbn zeta.
  assert (foldl write (seed ids ts) l !! n = Some w) as Hloop.
  { rewrite (foldl_write_named n _ (seed ids ts)) by done.
    rewrite (named_NoDup n v)
      by (by rewrite (sorted_Permutation _ _ Hl)).
    cbn. unfold write. cbn. by rewrite Hst, lookup_insert_eq. }
  destruct tag as [tag'|].
  - rewrite with_tag_lookup_ne; [by do 3 apply with_default_lookup_Some|].
    intros Heq. by specialize (Htag Heq).
  - by do 3 apply with_default_lookup_Some.
Qed.

(** X8.  The value of a well-known field: the answer of the helper when no
    stored attribute has the name, and otherwise the stored form of an
    attribute of that name, which the helper does not replace. *)
Theorem GetFieldValues_well_known_value ev ed eds tag t fv f :
  f ∈ WELL_KNOWN →
  GetFieldValues ev ed eds tag = Run t (OK fv) →
  (f ∉ stored_names (event_attributes ed eds) →
   fv !! f = Some (VStr (GetFormattedField f ev ed eds tag))) ∧
  (f ∈ stored_names (event_attributes ed eds) →
   ∃ v w, (f, v) ∈ event_attributes ed eds ∧ stored v = Some w ∧
          fv !! f = Some w).
Proof.
  intros Hf (ids & ts & l & _ & _ & Hl & -> & _)%GetFieldValues_OK.
  cbn zeta.
  assert (f ≠ u "_event_tag_labels") as Hlabels.
  { intros ->. revert Hf. by_computation. }
  assert (seed ids ts !! f = None) as Hseed.
  { apply seed_lookup_None. intros Hin.
    repeat (apply elem_of_cons in Hin as [->|Hin]);
      [revert Hf; by_computation..|by apply elem_of_nil in Hin]. }
  rewrite with_tag_lookup_ne by done. split.
  - intros Hnot.
    assert (foldl write (seed ids ts) l !! f = None) as Hloop.
    { apply eq_None_not_Some.
      intros [[w Hw]|Hin]%foldl_write_is_Some_iff; [congruence|].
      apply Hnot.
      by rewrite <-(stored_names_Permutation _ _
                      (sorted_Permutation _ _ Hl)). }
    unfold WELL_KNOWN in Hf.
    repeat (apply elem_of_cons in Hf as [->|Hf]);
      [| | |by apply elem_of_nil in Hf].
    + do 2 apply with_default_lookup_Some.
      by apply with_default_lookup_None.
    + apply with_default_lookup_Some, with_default_lookup_None.
      by rewrite with_default_lookup_ne by literals_differ.
    + apply with_default_lookup_None.
      by rewrite !with_default_lookup_ne by literals_differ.
  - intros Hin.
    rewrite (stored_names_Permutation _ _ (symmetry (sorted_Permutation _ _ Hl)))
      in Hin.
    assert (is_Some (foldl write (seed ids ts) l !! f)) as [w Hw].
    { apply foldl_write_is_Some_iff. by right. }
    pose proof Hw as [?|(v & Hv & Hst)]%foldl_write_lookup; [congruence|].
    exists v, w. split_and!; [|done|].
    + by rewrite <-(sorted_Permutation _ _ Hl).
    + by do 3 apply with_default_lookup_Some.
Qed.

(** X9.  A record without attributes: the mapping has the two seeds and
    the answers of the helper for the three well-known fields (and the
    labels of the tag), and the helper was called three times, for
    [display_name], [filename] and [inode] in this order. *)
Theorem GetFieldValues_no_attributes ev ed eds tag ids ts :
  CopyToString (GetIdentifier ev) = OK ids →
  CopyToDateTimeStringISO8601 (timestamp ev) = OK ts →
  event_attributes ed eds = [] →
  GetFieldValues ev ed eds tag
  = Run [Formatted (u "display_name"); Formatted (u "filename");
         Formatted (u "inode")]
        (OK (with_tag tag
               (<[u "inode" :=
                    VStr (GetFormattedField (u "inode") ev ed eds tag)]>
                  (<[u "filename" :=
                       VStr (GetFormattedField (u "filename") ev ed eds
                               tag)]>
                     (<[u "display_name" :=
                          VStr (GetFormattedField (u "display_name") ev ed
                                  eds tag)]>
                        (seed ids ts)))))).
Proof.
  intros Hids Hts Hattrs.
  rewrite GetFieldValues_unfold, Hids, Hts, Hattrs. cbn.
  assert (∀ f, f ∈ WELL_KNOWN → seed ids ts !! f = None) as Hseed.
  { intros f Hf. apply seed_lookup_None. intros Hin.
    repeat (apply elem_of_cons in Hin as [->|Hin]);
      [revert Hf; by_computation..|by apply elem_of_nil in Hin]. }
  unfold with_default, default_call.
  rewrite (Hseed (u "display_name")) by by_computation.
  rewrite lookup_insert_ne by literals_differ.
  rewrite (Hseed (u "filename")) by by_computation.
  rewrite !lookup_insert_ne by literals_differ.
  rewrite (Hseed (u "inode")) by by_computation.
  done.
Qed.

End GetFieldValues_values.

(** * Further properties of [WriteFieldValues] *)

Lemma join_cons sep x l : l ≠ [] → join sep (x :: l) = x ++ sep ++ join sep l.
Proof. by destruct l. Qed.

Lemma join_snoc_empty sep l : l ≠ [] → join sep (l ++ [[]]) = join sep l ++ sep.
Proof.
  induction l as [|x l IH]; [done|]. intros _.
  destruct l as [|y l].
  - simpl. by rewrite app_nil_r.
  - change ((x :: y :: l) ++ [[]]) with (x :: ((y :: l) ++ [[]])).
    rewrite !join_cons by done. rewrite IH by done.
    by rewrite <-!app_assoc.
Qed.

Lemma rmap_quoted ls :
  rmap (λ label, s ← format_s label; OK (u "'" ++ s ++ u "'")) (VStr <$> ls)
  = OK (quoted <$> ls).
Proof.
  induction ls as [|l ls IH]; [done|].
  rewrite fmap_cons. cbn [rmap format_s]. rewrite OK_bind, IH. done.
Qed.

Lemma pathspec_lines_prefix fv lines head :
  lines ≠ [] → pathspec_lines fv lines = OK head →
  ∃ more, head = lines ++ more.
Proof.
  intros Hne. unfold pathspec_lines.
  destruct (fv !! u "path_spec") as [v|];
    [destruct (truthy v)|];
    [|intros [= <-]; exists []; by rewrite app_nil_r..].
  intros (text & _ & [= <-])%bind_OK.
  rewrite removelast_app; [by eexists|done].
Qed.

Lemma pathspec_lines_skip fv lines :
  (∀ v, fv !! u "path_spec" = Some v → truthy v = false) →
  pathspec_lines fv lines = OK lines.
Proof.
  intros Hv. unfold pathspec_lines.
  destruct (fv !! u "path_spec") as [v|]; [|done].
  by rewrite (Hv v).
Qed.

Lemma tag_lines_prefix fv lines body :
  tag_lines fv lines = OK body → ∃ more, body = lines ++ more.
Proof.
  unfold tag_lines.
  destruct (fv !! u "_event_tag_labels") as [v|];
    [destruct (truthy v)|];
    [|intros [= <-]; exists []; by rewrite app_nil_r..].
  intros (els & _ & (q & _ & [= <-])%bind_OK)%bind_OK. by eexists.
Qed.

(** The loop ends with the exception of the first field, in the order of
    the items, whose value [str] does not convert. *)
Lemma attribute_lines_from_Raise R repr reserved additional p1 k v p2 e :
  (∀ a, a ∈ p1 → a.1 ∉ STRUCTURAL_KEYS → has_str repr a.2 = true) →
  k ∉ STRUCTURAL_KEYS → py_str repr v = Raise e →
  attribute_lines_from R repr reserved additional (p1 ++ (k, v) :: p2)
  = Raise e.
Proof.
  intros Hp1 Hk Hv. revert reserved additional.
  induction p1 as [|[k' v'] p1 IH]; intros reserved additional.
  - cbn [app attribute_lines_from].
    rewrite (bool_decide_eq_false_2 _ Hk). unfold field_string.
    by rewrite Hv.
  - cbn [app attribute_lines_from]. case_bool_decide as Hs.
    + apply IH. intros a Ha. apply Hp1. by right.
    + destruct (proj1 (has_str_OK repr v') (Hp1 (k', v') ltac:(left) Hs))
        as [s Hs'].
      unfold field_string. rewrite Hs', !OK_bind.
      destruct (bool_decide (k' ∈ R));
        apply IH; intros a Ha; apply Hp1; by right.
Qed.

Section WriteFieldValues_more.

Context (RESERVED_VARIABLE_NAMES : list str) (repr : value → result str).

Local Abbreviation attribute_lines :=
  (attribute_lines RESERVED_VARIABLE_NAMES repr).
Local Abbreviation lines_of_text :=
  (lines_of_text RESERVED_VARIABLE_NAMES repr).
Local Abbreviation WriteFieldValues :=
  (WriteFieldValues RESERVED_VARIABLE_NAMES repr).

(** X10.  [WriteFieldValues] returns exactly for the mappings whose fields
    other than the four structural keys have values [str] converts, whose
    timestamp is a [str], whose path specification, when present and true,
    is a path specification, and whose tag labels, when present and true,
    are a sequence of [str]; for every other mapping it raises. *)
Theorem WriteFieldValues_returns_iff fv :
  well_formed repr fv = true ↔ ∃ text, WriteFieldValues fv = OK text.
Proof. apply WriteFieldValues_OK. Qed.

(** X11.  The exceptions of [WriteFieldValues], in the order in which the
    code reaches them.  The loop over the fields comes first: the first
    field, in the order of the names, that is not structural and whose value
    [str] does not convert ends the call with the exception of [str],
    whatever the timestamp is.  When [str] converts every such field:
    [KeyError] when the timestamp key is missing, [ValueError] when the
    timestamp is an [int], and, the timestamp being a [str],
    [AttributeError] when the value under [path_spec] is true and is not a
    path specification. *)
Theorem WriteFieldValues_raises fv :
  (∀ k v e,
     fv !! k = Some v → k ∉ STRUCTURAL_KEYS → py_str repr v = Raise e →
     (∀ k' v', fv !! k' = Some v' → k' ∉ STRUCTURAL_KEYS →
               str_ltb k' k = true → has_str repr v' = true) →
     WriteFieldValues fv = Raise e) ∧
  (renders repr fv = true →
   (fv !! u "_timestamp" = None → WriteFieldValues fv = Raise KeyError) ∧
   (∀ z, fv !! u "_timestamp" = Some (VInt z) →
         WriteFieldValues fv = Raise ValueError) ∧
   (∀ ts v, fv !! u "_timestamp" = Some (VStr ts) →
            fv !! u "path_spec" = Some v →
            truthy v = true → is_path_spec v = false →
            WriteFieldValues fv = Raise AttributeError)).
Proof.
  unfold WriteFieldValues, lines_of_text.
  destruct (sorted_items fv) as [items Hitems]. rewrite Hitems, OK_bind.
  split.
  - intros k v e Hk Hs Hv Hbefore.
    pose proof (sorted_strict _ _ (NoDup_fst_map_to_list fv) Hitems)
      as Hstrict.
    apply (sorted_items_lookup _ _ _ _ Hitems) in Hk as Hin.
    apply list_elem_of_split in Hin as (p1 & p2 & ->).
    apply StronglySorted_app in Hstrict as (Hcross & _ & _).
    unfold attribute_lines.
    rewrite (attribute_lines_from_Raise _ _ _ _ p1 k v p2 e); [done| |done..].
    intros [k' v'] Hin Hs'. apply (Hbefore k' v'); [|done|].
    + apply (sorted_items_lookup _ _ _ _ Hitems).
      apply elem_of_app. by left.
    + apply (Hcross (k', v') (k, v)); [done|left].
  - intros [[reserved additional] Hattr]%(renders_items RESERVED_VARIABLE_NAMES _ _ items Hitems).
    rewrite Hattr, OK_bind. split_and!.
    + by intros ->.
    + by intros z ->.
    + intros ts v -> Hv Htruthy Hps. rewrite !OK_bind. cbn [format_s].
      rewrite OK_bind. unfold pathspec_lines. rewrite Hv, Htruthy.
      by destruct v.
Qed.

(** X12.  When the loop completes, every field whose name is none of the
    four structural keys has its line exactly once in the two sections, and
    the sections have no other line. *)
Theorem attribute_lines_partition items reserved additional :
  attribute_lines items = OK (reserved, additional) →
  ∃ lines,
    rmap (line_of repr) (filter (λ a, a.1 ∉ STRUCTURAL_KEYS) items)
    = OK lines ∧
    reserved ++ additional ≡ₚ lines.
Proof.
  intros [Hres Hadd]%attribute_lines_OK. revert reserved additional Hres Hadd.
  induction items as [|a items IH]; intros reserved additional Hres Hadd.
  - injection Hres as <-. injection Hadd as <-. by exists [].
  - rewrite filter_cons in Hres, Hadd |- *.
    destruct (decide (a.1 ∈ STRUCTURAL_KEYS)) as [Hs|Hs].
    + rewrite decide_False in Hres by (by intros [? _]).
      rewrite decide_False in Hadd by (by intros [? _]).
      rewrite decide_False by (intros Hn; by apply Hn).
      by apply IH.
    + rewrite (decide_True (P := a.1 ∉ STRUCTURAL_KEYS)) by done.
      destruct (decide (a.1 ∈ RESERVED_VARIABLE_NAMES)) as [Hr|Hr].
      * rewrite decide_True in Hres by done.
        rewrite decide_False in Hadd by (by intros [_ ?]).
        apply rmap_cons_inv in Hres as (line & res' & Hline & Hres' & ->).
        destruct (IH res' additional Hres' Hadd) as (lines & Hlines & Hperm).
        exists (line :: lines). cbn [rmap].
        rewrite Hline, OK_bind, Hlines, OK_bind. split; [done|].
        simpl. by rewrite Hperm.
      * rewrite decide_False in Hres by (by intros [_ ?]).
        rewrite decide_True in Hadd by done.
        apply rmap_cons_inv in Hadd as (line & add' & Hline & Hadd' & ->).
        destruct (IH reserved add' Hres Hadd') as (lines & Hlines & Hperm).
        exists (line :: lines). cbn [rmap].
        rewrite Hline, OK_bind, Hlines, OK_bind. split; [done|].
        rewrite <-Permutation_middle. by rewrite Hperm.
Qed.

(** The tag section of a mapping with a non-empty list of labels. *)
Lemma tag_section_lines fv ls lines :
  fv !! u "_event_tag_labels" = Some (VList (VStr <$> ls)) →
  ls ≠ [] →
  lines_of_text fv = OK lines →
  ∃ body,
    lines = body
            ++ [[]; u "[Tag]:";
                u "  {labels} [" ++ join (u ", ") (quoted <$> ls) ++ u "]";
                []].
Proof.
  intros Hlabels Hne
    (items & reserved & additional & ts & head & body & _ & _ & _ & _
     & Hbody & ->)%lines_of_text_inv.
  unfold tag_lines in Hbody. rewrite Hlabels in Hbody.
  assert (truthy (VList (VStr <$> ls)) = true) as Htruthy
    by by destruct ls.
  rewrite Htruthy in Hbody. cbn [iterate] in Hbody.
  rewrite OK_bind, rmap_quoted, OK_bind in Hbody. injection Hbody as <-.
  eexists. by rewrite <-app_assoc.
Qed.

(** X13.  A mapping with a non-empty list of labels is rendered with a tag
    section at its end: an empty line, [[Tag]:], the line of the labels,
    each in single quotes and joined by a comma and a space, and the empty
    last line. *)
Theorem lines_of_text_tag_section fv ls lines :
  fv !! u "_event_tag_labels" = Some (VList (VStr <$> ls)) →
  ls ≠ [] →
  lines_of_text fv = OK lines →
  ∃ body,
    lines = body
            ++ [[]; u "[Tag]:";
                u "  {labels} [" ++ join (u ", ") (quoted <$> ls) ++ u "]";
                []].
Proof. apply tag_section_lines. Qed.

(** X14.  Without labels, or with labels that are not true (an empty list),
    there is no tag section: the output ends with the additional section
    the loop built and the empty last line. *)
Theorem lines_of_text_no_tag_section fv lines :
  (∀ v, fv !! u "_event_tag_labels" = Some v → truthy v = false) →
  lines_of_text fv = OK lines →
  ∃ items reserved additional head,
    sorted (map_to_list fv) = OK items ∧
    attribute_lines items = OK (reserved, additional) ∧
    lines = head ++ [[]; u "[Additional attributes]:"]
            ++ additional ++ [[]].
Proof.
  intros Hlabels
    (items & reserved & additional & ts & head & body & Hitems & Hattr & _
     & _ & Hbody & ->)%lines_of_text_inv.
  unfold tag_lines in Hbody.
  assert (body = (((head ++ [[]; u "[Reserved attributes]:"])
                   ++ reserved)
                  ++ [[]; u "[Additional attributes]:"])
                 ++ additional) as ->.
  { destruct (fv !! u "_event_tag_labels") as [v|].
    - rewrite (Hlabels v) in Hbody by reflexivity. by injection Hbody.
    - by injection Hbody. }
  exists items, reserved, additional,
    (head ++ [[]; u "[Reserved attributes]:"] ++ reserved).
  split_and!; [done..|]. by rewrite <-!app_assoc.
Qed.

(** X15.  Without a path specification, or with a value under [path_spec]
    that is not true (an empty string), there is no path specification
    section: the reserved section follows the timestamp. *)
Theorem lines_of_text_no_pathspec_section fv lines :
  (∀ v, fv !! u "path_spec" = Some v → truthy v = false) →
  lines_of_text fv = OK lines →
  ∃ ts rest,
    fv !! u "_timestamp" = Some (VStr ts) ∧
    lines = [SEPARATOR; u "[Timestamp]:"; u "  " ++ ts; [];
             u "[Reserved attributes]:"] ++ rest.
Proof.
  intros Hps
    (items & reserved & additional & ts & head & tail & _ & _ & Hts & Hhead
     & ->)%lines_of_text_shape.
  rewrite pathspec_lines_skip in Hhead by done. injection Hhead as <-.
  exists ts. eexists. split; [done|]. by cbn [app].
Qed.

(** X16.  The text of a record begins with the separator line and the
    timestamp section and ends with a line feed. *)
Theorem WriteFieldValues_frame fv text :
  WriteFieldValues fv = OK text →
  ∃ ts body,
    fv !! u "_timestamp" = Some (VStr ts) ∧
    text = SEPARATOR ++ [LF] ++ u "[Timestamp]:" ++ [LF]
           ++ (u "  " ++ ts) ++ [LF] ++ body ++ [LF].
Proof.
  unfold WriteFieldValues.
  intros (lines & Hlines & [= <-])%bind_OK.
  apply lines_of_text_inv in Hlines
    as (items & reserved & additional & ts & head & body & _ & _ & Hts
        & Hhead & Hbody & ->).
  apply pathspec_lines_prefix in Hhead as [more ->]; [|done].
  apply tag_lines_prefix in Hbody as [more' ->].
  set (mid := more ++ [[]; u "[Reserved attributes]:"]
              ++ reserved
              ++ [[]; u "[Additional attributes]:"]
              ++ additional ++ more').
  exists ts, (join [LF] mid). split; [done|].
  assert (mid ≠ []) as Hmid.
  { unfold mid. intros [_ Heq]%app_eq_nil. discriminate Heq. }
  replace ((((((([SEPARATOR; u "[Timestamp]:"; u "  " ++ ts] ++ more)
                ++ [[]; u "[Reserved attributes]:"])
               ++ reserved)
              ++ [[]; u "[Additional attributes]:"])
             ++ additional) ++ more') ++ [[]])
    with (SEPARATOR :: u "[Timestamp]:" :: (u "  " ++ ts) :: (mid ++ [[]]))
    by (unfold mid; by rewrite <-!app_assoc).
  rewrite 2!join_cons by done.
  rewrite join_cons by (intros [Heq _]%app_eq_nil; by apply Hmid).
  by rewrite join_snoc_empty.
Qed.

End WriteFieldValues_more.

(** * Further properties of the UTF-8 codec *)

Module Utf8_more.
Import Utf8 Utf8_facts.

(** One step of case analysis on the decoder. *)
Ltac decoder_step :=
  first
    [ progress cbn [andb orb negb]
    | match goal with
      | |- context [N.ltb ?a ?b] => destruct (N.ltb_spec a b)
      | |- context [N.leb ?a ?b] => destruct (N.leb_spec a b)
      | |- context [N.eqb ?a ?b] => destruct (N.eqb_spec a b)
      | |- context [match ?r with [] => _ | _ :: _ => _ end] =>
          is_var r; destruct r
      end ].

(** Split the bound on the bytes of a list. *)
Ltac split_bytes :=
  repeat match goal with
  | H : Forall _ (_ :: _) |- _ => apply Forall_cons in H as [? H]
  end.

(** The decoder gives Unicode scalar values only: no surrogate, nothing
    above U+10FFFF. *)
Lemma decode_replace_scalar s :
  Forall (λ n, n ≤ 255)%N s →
  Forall (λ c, is_scalar c = true) (decode_replace s).
Proof.
  remember (length s) as n eqn:Hn.
  assert (length s ≤ n) as Hlen by lia. clear Hn.
  revert s Hlen. induction n as [|n IH]; intros s Hlen Hbytes.
  { destruct s; [constructor|simpl in Hlen; lia]. }
  destruct s as [|b0 r]; [constructor|].
  rewrite decode_replace_cons. unfold is_continuation.
  repeat decoder_step; split_bytes; simpl in Hlen;
    repeat lazymatch goal with
    | |- Forall _ [] => constructor
    | |- Forall _ (decode_replace _) =>
        apply IH;
          [cbn [length]; lia
          |repeat (constructor; [assumption|]); assumption]
    | |- Forall _ (_ :: _) => constructor
    | |- is_scalar _ = true =>
        apply is_scalar_range; unfold REPLACEMENT; lia
    end.
Qed.

(** What the decoder did not have to replace, the encoder gives back. *)
Lemma encode_decode_replace s :
  Forall (λ n, n ≤ 255)%N s →
  REPLACEMENT ∉ decode_replace s →
  decode_replace s ≫= encode_char = s.
Proof.
  remember (length s) as n eqn:Hn.
  assert (length s ≤ n) as Hlen by lia. clear Hn.
  revert s Hlen. induction n as [|n IH]; intros s Hlen Hbytes.
  { destruct s; [done|simpl in Hlen; lia]. }
  destruct s as [|b0 r]; [done|].
  rewrite decode_replace_cons. unfold is_continuation.
  repeat decoder_step; split_bytes; simpl in Hlen; intros Hclean;
    try (destruct Hclean; by left);
    apply not_elem_of_cons in Hclean as [_ Hclean];
    rewrite bind_cons, IH
      by first [cbn [length]; lia | done
               | repeat (constructor; [assumption|]); assumption];
    unfold encode_char; compare_cases; cbn [app]; repeat f_equal; div_lia.
Qed.

End Utf8_more.

(** * [WriteFieldValues] after [GetFieldValues] *)

Lemma forallb_is_str ls : forallb is_str (VStr <$> ls) = true.
Proof. by induction ls. Qed.

Lemma stored_not_bytes v w b : stored v = Some w → w ≠ VBytes b.
Proof.
  unfold stored. destruct (is_identifier_or_date_time v); [done|].
  destruct (is_date_time_list v); [done|].
  intros [= <-]. by destruct v.
Qed.

Section pipeline.

Context (CopyToString : AttributeContainerIdentifier → result str).
Context (CopyToDateTimeStringISO8601 : Z → result str).
Context (GetFormattedField :
  str → EventObject → EventData → option EventDataStream →
  option EventTag → str).
Context (RESERVED_VARIABLE_NAMES : list str) (repr : value → result str).

Local Abbreviation GetFieldValues :=
  (GetFieldValues CopyToString CopyToDateTimeStringISO8601
     GetFormattedField).

(** X17.  For an event that has a timestamp, the mapping [GetFieldValues]
    returns is one [WriteFieldValues] renders, when [str] converts every value the loop stores under a name
    that is none of the four structural keys (it does not convert an [int]
    of more than 4300 digits), no stored attribute is called [_timestamp],
    none is called [_event_tag_labels] unless there is a tag, and every
    attribute called [path_spec] holds a path specification. *)
Theorem WriteFieldValues_GetFieldValues ev ed eds tag t fv :
  GetFieldValues ev ed eds tag = Run t (OK fv) →
  (∀ n v w, (n, v) ∈ event_attributes ed eds → stored v = Some w →
            n ∉ STRUCTURAL_KEYS → has_str repr w = true) →
  u "_timestamp" ∉ stored_names (event_attributes ed eds) →
  (tag = None →
   u "_event_tag_labels" ∉ stored_names (event_attributes ed eds)) →
  (∀ v, (u "path_spec", v) ∈ event_attributes ed eds →
        is_path_spec v = true) →
  ∃ text, WriteFieldValues RESERVED_VARIABLE_NAMES repr fv = OK text.
Proof.
  intros Hrun Hstr Hts Hlabels Hps. apply WriteFieldValues_OK.
  assert (∀ k v w, (k, v) ∈ event_attributes ed eds → stored v = Some w →
            k ∈ stored_names (event_attributes ed eds)) as Hnames.
  { intros k v w Hin Hst. apply stored_names_elem. exists v.
    split; [done|]. destruct (is_ignored v) eqn:Hv; [|done].
    apply stored_None in Hv. congruence. }
  unfold well_formed. rewrite !andb_true_iff. split_and!.
  - apply renders_lookup. intros k w Hw Hs.
    destruct (GetFieldValues_lookup _ _ _ _ _ _ _ _ _ _ _ Hrun Hw)
      as [(-> & _)|[(v & Hin & Hst)|[(_ & s & ->)|(_ & ->)]]];
      [|by eapply Hstr|done..].
    destruct Hs. by_computation.
  - destruct (GetFieldValues_keys _ _ _ _ _ _ _ _ _ (u "_timestamp") Hrun)
      as [w Hw]; [by_computation|].
    rewrite Hw.
    destruct (GetFieldValues_lookup _ _ _ _ _ _ _ _ _ _ _ Hrun Hw)
      as [(Hk & _)|[(v & Hin & Hst)|[(_ & s & ->)|(Hk & _)]]];
      [by vm_compute in Hk| |done|exfalso; revert Hk; by_computation].
    destruct Hts. by eapply Hnames.
  - destruct (fv !! u "path_spec") as [w|] eqn:Hw; [|done].
    destruct (GetFieldValues_lookup _ _ _ _ _ _ _ _ _ _ _ Hrun Hw)
      as [(Hk & _)|[(v & Hin & Hst)|[(Hk & _)|(Hk & _)]]];
      [by vm_compute in Hk| |exfalso; revert Hk; by_computation..].
    specialize (Hps v Hin). destruct v; try done.
    injection Hst as <-. apply orb_true_r.
  - destruct (fv !! u "_event_tag_labels") as [w|] eqn:Hw; [|done].
    destruct (GetFieldValues_lookup _ _ _ _ _ _ _ _ _ _ _ Hrun Hw)
      as [(_ & tag' & -> & ->)|[(v & Hin & Hst)|[(Hk & _)|(Hk & _)]]];
      [| |exfalso; revert Hk; by_computation..].
    + cbn [is_labels]. rewrite forallb_is_str. apply orb_true_r.
    + destruct tag as [tag'|].
      * apply GetFieldValues_OK in Hrun
          as (ids & ts & l & _ & _ & _ & -> & _).
        unfold with_tag in Hw. rewrite lookup_insert_eq in Hw.
        injection Hw as <-.
        cbn [is_labels]. rewrite forallb_is_str. apply orb_true_r.
      * destruct Hlabels; [done|]. by eapply Hnames.
Qed.

(** X18.  No value of a returned mapping is a bytes value: a bytes value at
    the top of an attribute is always decoded before it is stored. *)
Theorem GetFieldValues_no_bytes ev ed eds tag t fv k b :
  GetFieldValues ev ed eds tag = Run t (OK fv) →
  fv !! k ≠ Some (VBytes b).
Proof.
  intros Hrun Hk.
  destruct (GetFieldValues_lookup _ _ _ _ _ _ _ _ _ _ _ Hrun Hk)
    as [(_ & tag' & _ & ?)|[(v & _ & Hst)|[(_ & s & ?)|(_ & ?)]]];
    [done| |done..].
  by eapply stored_not_bytes.
Qed.

(** X7.  When there is a tag, the mapping holds the list of its labels
    under [_event_tag_labels], whatever the attributes are, and when the
    list is not empty the output ends with the tag section of these
    labels. *)
Theorem GetFieldValues_tag_labels ev ed eds tag t fv :
  GetFieldValues ev ed eds (Some tag) = Run t (OK fv) →
  fv !! u "_event_tag_labels" = Some (VList (VStr <$> labels tag)) ∧
  ∀ lines,
    labels tag ≠ [] →
    lines_of_text RESERVED_VARIABLE_NAMES repr fv = OK lines →
    ∃ body,
      lines = body
              ++ [[]; u "[Tag]:";
                  u "  {labels} ["
                  ++ join (u ", ") (quoted <$> labels tag) ++ u "]";
                  []].
Proof.
  intros Hrun.
  assert (fv !! u "_event_tag_labels"
          = Some (VList (VStr <$> labels tag))) as Hlabels.
  { apply GetFieldValues_OK in Hrun as (ids & ts & l & _ & _ & _ & -> & _).
    unfold with_tag. apply lookup_insert_eq. }
  split; [done|]. intros lines Hne Hlines.
  exact (tag_section_lines _ _ fv (labels tag) lines Hlabels Hne Hlines).
Qed.

End pipeline.

(** * Further properties of the decoding of bytes values *)

Lemma to_N_bytes (b : list byte) : Forall (λ n, n ≤ 255)%N (Byte.to_N <$> b).
Proof.
  apply Forall_fmap, Forall_forall. intros x _. apply Byte.to_N_bounded.
Qed.

(** X19.  The text a bytes value is decoded to consists of Unicode scalar
    values: it has no surrogate and nothing above U+10FFFF, whatever the
    bytes are. *)
Theorem bytes_decode_scalar (b : list byte) :
  Forall (λ c, Utf8.is_scalar c = true) (Utf8.decode b).
Proof. apply Utf8_more.decode_replace_scalar, to_N_bytes. Qed.

(** X20.  When the decoded text has no U+FFFD, nothing was replaced and
    the text encodes to the bytes it was decoded from. *)
Theorem bytes_encode_decode (b : list byte) :
  Utf8.REPLACEMENT ∉ Utf8.decode b → Utf8.encode (Utf8.decode b) = b.
Proof.
  intros Hclean. unfold Utf8.encode, Utf8.decode in *.
  rewrite Utf8_more.encode_decode_replace by (done || apply to_N_bytes).
  unfold Utf8.byte_of_N. rewrite <-list_fmap_compose.
  rewrite <-(list_fmap_id b) at 2. apply list_fmap_ext.
  intros i x _. simpl. by rewrite Byte.of_to_N.
Qed.

(** * The path specification section and the comparable string *)

Lemma join_split sep s : join [sep] (split sep s) = s.
Proof.
  induction s as [|c s IH]; [done|]. simpl.
  pose proof (split_nonempty sep s) as Hne.
  destruct (N.eqb_spec c sep) as [->|Hc].
  - rewrite join_cons by done. by rewrite IH.
  - destruct (split sep s) as [|w ws] eqn:Hs; [done|].
    destruct ws as [|w' ws].
    + simpl in *. by rewrite IH.
    + rewrite join_cons by done. rewrite join_cons in IH by done.
      by rewrite <-IH.
Qed.

Lemma split_no_separator sep s : Forall (λ line, sep ∉ line) (split sep s).
Proof.
  induction s as [|c s IH]; simpl.
  - repeat constructor. apply not_elem_of_nil.
  - destruct (N.eqb_spec c sep) as [->|Hc].
    + constructor; [apply not_elem_of_nil|done].
    + destruct (split sep s) as [|w ws]; [repeat constructor|].
      * by intros [->|?%elem_of_nil]%elem_of_cons.
      * apply Forall_cons in IH as [Hw Hws]. constructor; [|done].
        by intros [->|?]%elem_of_cons.
Qed.

(** X21.  When the comparable string ends with a line feed, the body of
    the path specification section gives the string back: its lines,
    without the two spaces in front and joined by line feeds, are the
    comparable string up to its last line feed. *)
Theorem pathspec_section_round_trip
    (RESERVED_VARIABLE_NAMES : list str) (repr : value → result str)
    (field_values : gmap str value) p text lines :
  field_values !! u "path_spec" = Some (VPathSpec p) →
  comparable p = text ++ [LF] →
  lines_of_text RESERVED_VARIABLE_NAMES repr field_values = OK lines →
  ∃ ts body tail,
    lines = [SEPARATOR; u "[Timestamp]:"; u "  " ++ ts; []; u "[Pathspec]:"]
            ++ ((λ line, u "  " ++ line) <$> body)
            ++ [[]; u "[Reserved attributes]:"] ++ tail ∧
    join [LF] body = text ∧
    Forall (λ line, LF ∉ line) body.
Proof.
  intros Hp Htext
    (items & reserved & additional & ts & head & tail & _ & _ & _ & Hhead
     & ->)%lines_of_text_shape.
  rewrite (pathspec_lines_path_spec _ p) in Hhead by done.
  injection Hhead as <-.
  rewrite Htext, split_snoc, removelast_last.
  exists ts, (split LF text),
    (reserved ++ [[]; u "[Additional attributes]:"] ++ additional ++ tail).
  split_and!.
  - cbn [app]. by rewrite <-?app_assoc.
  - apply join_split.
  - apply split_no_separator.
Qed.

(** * The further properties on the sample record *)

Lemma sample_run_returns :
  sample_GetFieldValues sample_event_data (Some sample_stream)
    (Some sample_tag)
  = Run (trace sample_run) (OK sample_field_values).
Proof. vm_compute. reflexivity. Defined.

Lemma GetFieldValues_raises_witness :
  trace
    (sample_GetFieldValues
       {| data_type := u "test:event";
          event_data_attributes := [(u "x", VInt 1)] |}
       (Some {| event_data_stream_attributes := [(u "x", VStr (u "a"))] |})
       None) = [].
Proof.
  refine (proj1 (GetFieldValues_raises _ _ _ _ _ _ _ TypeError _)).
  vm_compute. reflexivity.
Defined.

Lemma GetFieldValues_attribute_order_witness :
  sample_GetFieldValues
    {| data_type := u "test:event";
       event_data_attributes :=
         [(u "size", VInt 10); (u "name_attr", VStr (u "x"))] |}
    None None
  = sample_GetFieldValues
      {| data_type := u "test:event";
         event_data_attributes := [(u "name_attr", VStr (u "x"))] |}
      (Some {| event_data_stream_attributes := [(u "size", VInt 10)] |})
      None.
Proof.
  apply GetFieldValues_attribute_order.
  - by_computation.
  - apply perm_swap.
  - reflexivity.
  - reflexivity.
Defined.

Lemma GetFieldValues_warnings_witness :
  ∃ l,
    sorted (event_attributes sample_event_data (Some sample_stream)) = OK l ∧
    l ≡ₚ event_attributes sample_event_data (Some sample_stream) ∧
    StronglySorted name_le l ∧
    filter is_warning (trace sample_run)
      = l ≫= warnings_of (data_type sample_event_data) ∧
    filter is_warning (trace sample_run)
      ≡ₚ event_attributes sample_event_data (Some sample_stream)
         ≫= warnings_of (data_type sample_event_data).
Proof.
  exact (GetFieldValues_warnings _ _ _ _ _ _ _ _ _ sample_run_returns).
Defined.

Lemma GetFieldValues_helper_calls_witness :
  filter is_formatted (trace sample_run)
  = [Formatted (u "display_name"); Formatted (u "inode")].
Proof.
  rewrite (GetFieldValues_helper_calls _ _ _ _ _ _ _ _ _ sample_run_returns).
  vm_compute. reflexivity.
Defined.

Lemma GetFieldValues_keys_iff_witness :
  is_Some (sample_field_values !! u "md5_hash").
Proof.
  apply (GetFieldValues_keys_iff _ _ _ _ _ _ _ _ _ _ sample_run_returns).
  right. left. by_computation.
Defined.

Lemma GetFieldValues_attribute_lookup_witness :
  sample_field_values !! u "comment" = Some (VStr [0x20AC; 0xFFFD]%N).
Proof.
  apply (GetFieldValues_attribute_lookup
           sample_CopyToString Dfdatetime.CopyToDateTimeStringISO8601
           no_fallback sample_event sample_event_data (Some sample_stream)
           (Some sample_tag) (trace sample_run) sample_field_values
           (u "comment") (VBytes [xe2; x82; xac; xff])).
  - by_computation.
  - vm_compute. right. left.
  - vm_compute. reflexivity.
  - intros Heq. vm_compute in Heq. discriminate Heq.
  - exact sample_run_returns.
Defined.

Lemma GetFieldValues_tag_labels_witness :
  sample_field_values !! u "_event_tag_labels"
  = Some (VList [VStr (u "a"); VStr (u "b")]).
Proof.
  exact (proj1 (GetFieldValues_tag_labels _ _ _ sample_reserved sample_repr
                  _ _ _ _ _ _ sample_run_returns)).
Defined.

Lemma GetFieldValues_well_known_value_witness :
  sample_field_values !! u "inode" = Some (VStr []).
Proof.
  refine (proj1 (GetFieldValues_well_known_value _ _ _ _ _ _ _ _ _
                   (u "inode") _ sample_run_returns) _).
  - by_computation.
  - by_computation.
Defined.

Lemma GetFieldValues_no_attributes_witness :
  trace
    (sample_GetFieldValues
       {| data_type := u "test:event"; event_data_attributes := [] |}
       None None)
  = [Formatted (u "display_name"); Formatted (u "filename");
     Formatted (u "inode")].
Proof.
  unfold sample_GetFieldValues.
  rewrite (GetFieldValues_no_attributes
             sample_CopyToString Dfdatetime.CopyToDateTimeStringISO8601
             no_fallback sample_event
             {| data_type := u "test:event"; event_data_attributes := [] |}
             None None (u "event.1")
             (u "2024-01-01T00:00:00.000000+00:00")).
  - reflexivity.
  - vm_compute. reflexivity.
  - vm_compute. reflexivity.
  - reflexivity.
Defined.

Lemma sample_lines_returns :
  lines_of_text sample_reserved sample_repr sample_field_values
  = OK sample_lines.
Proof. vm_compute. reflexivity. Defined.

Lemma lines_of_text_tag_section_witness :
  ∃ body,
    sample_lines = body ++ [[]; u "[Tag]:"; u "  {labels} ['a', 'b']"; []].
Proof.
  destruct (lines_of_text_tag_section sample_reserved sample_repr
              sample_field_values [u "a"; u "b"] sample_lines)
    as [body Hbody]; [..|exact sample_lines_returns|].
  - vm_compute. reflexivity.
  - done.
  - exists body. rewrite Hbody. vm_compute. reflexivity.
Defined.

Lemma WriteFieldValues_raises_witness :
  WriteFieldValues sample_reserved sample_repr
    {[ u "n" := VInt (10 ^ 4300) ]}
  = Raise ValueError.
Proof.
  apply (proj1 (WriteFieldValues_raises sample_reserved sample_repr
                  {[ u "n" := VInt (10 ^ 4300) ]})
           (u "n") (VInt (10 ^ 4300))).
  - apply lookup_singleton_eq.
  - by_computation.
  - vm_compute. reflexivity.
  - intros k' v' [<- _]%lookup_singleton_Some _ Hlt.
    vm_compute in Hlt. discriminate Hlt.
Defined.

Lemma attribute_lines_partition_witness :
  ∃ lines,
    rmap (line_of sample_repr)
      (filter (λ a, a.1 ∉ STRUCTURAL_KEYS)
         [(u "_timestamp", VStr (u "2024-01-01T00:00:00"));
          (u "filename", VStr (u "a")); (u "size", VInt 10)])
    = OK lines ∧
    [u "  {filename} a"] ++ [u "  {size} 10"] ≡ₚ lines.
Proof.
  apply (attribute_lines_partition sample_reserved sample_repr).
  vm_compute. reflexivity.
Defined.

Lemma lines_of_text_no_tag_section_witness :
  let field_values : gmap str value :=
    <[u "_event_tag_labels" := VList []]>
      (<[u "size" := VInt 10]>
         {[ u "_timestamp" := VStr (u "2024-01-01T00:00:00") ]}) in
  ∃ items reserved additional head,
    sorted (map_to_list field_values) = OK items ∧
    attribute_lines sample_reserved sample_repr items
    = OK (reserved, additional) ∧
    [SEPARATOR; u "[Timestamp]:"; u "  2024-01-01T00:00:00"; [];
     u "[Reserved attributes]:"; []; u "[Additional attributes]:";
     u "  {size} 10"; []]
    = head ++ [[]; u "[Additional attributes]:"] ++ additional ++ [[]].
Proof.
  intros field_values.
  apply (lines_of_text_no_tag_section sample_reserved sample_repr
           field_values).
  - intros v Hv. vm_compute in Hv. by injection Hv as <-.
  - vm_compute. reflexivity.
Defined.

Lemma lines_of_text_no_pathspec_section_witness :
  let field_values : gmap str value :=
    <[u "path_spec" := VStr []]>
      {[ u "_timestamp" := VStr (u "2024-01-01T00:00:00") ]} in
  ∃ ts rest,
    field_values !! u "_timestamp" = Some (VStr ts) ∧
    [SEPARATOR; u "[Timestamp]:"; u "  2024-01-01T00:00:00"; [];
     u "[Reserved attributes]:"; []; u "[Additional attributes]:"; []]
    = [SEPARATOR; u "[Timestamp]:"; u "  " ++ ts; [];
       u "[Reserved attributes]:"] ++ rest.
Proof.
  intros field_values.
  apply (lines_of_text_no_pathspec_section sample_reserved sample_repr
           field_values).
  - intros v Hv. vm_compute in Hv. by injection Hv as <-.
  - vm_compute. reflexivity.
Defined.

Lemma WriteFieldValues_frame_witness :
  ∃ ts body,
    sample_field_values !! u "_timestamp" = Some (VStr ts) ∧
    sample_text
    = SEPARATOR ++ [LF] ++ u "[Timestamp]:" ++ [LF]
      ++ (u "  " ++ ts) ++ [LF] ++ body ++ [LF].
Proof.
  apply (WriteFieldValues_frame sample_reserved sample_repr).
  vm_compute. reflexivity.
Defined.

Lemma WriteFieldValues_GetFieldValues_witness :
  ∃ text,
    WriteFieldValues sample_reserved sample_repr sample_field_values
    = OK text.
Proof.
  apply (WriteFieldValues_GetFieldValues _ _ _ _ _ _ _ _ _ _ _
           sample_run_returns).
  - intros n v w Hin Hst _. vm_compute in Hin.
    repeat (apply elem_of_cons in Hin as [Heq|Hin];
            [injection Heq as -> ->; vm_compute in Hst;
             first [discriminate Hst | by injection Hst as <-]|]).
    by apply elem_of_nil in Hin.
  - by_computation.
  - done.
  - intros v Hin. vm_compute in Hin.
    repeat (apply elem_of_cons in Hin as [Heq|Hin];
            [by inversion Heq|]).
    by apply elem_of_nil in Hin.
Defined.

Lemma GetFieldValues_no_bytes_witness :
  sample_field_values !! u "comment" ≠ Some (VBytes [xe2; x82; xac; xff]).
Proof.
  exact (GetFieldValues_no_bytes _ _ _ _ _ _ _ _ _ _ _ sample_run_returns).
Defined.

Lemma bytes_encode_decode_witness :
  Utf8.encode (Utf8.decode [xe2; x82; xac; x41]) = [xe2; x82; xac; x41].
Proof. apply bytes_encode_decode. by_computation. Defined.

Lemma pathspec_section_round_trip_witness :
  ∃ ts body tail,
    sample_lines
    = [SEPARATOR; u "[Timestamp]:"; u "  " ++ ts; []; u "[Pathspec]:"]
      ++ ((λ line, u "  " ++ line) <$> body)
      ++ [[]; u "[Reserved attributes]:"] ++ tail ∧
    join [LF] body = u "type: OS" ∧
    Forall (λ line, LF ∉ line) body.
Proof.
  apply (pathspec_section_round_trip sample_reserved sample_repr
           sample_field_values {| comparable := u "type: OS" ++ [LF] |}).
  - vm_compute. reflexivity.
  - reflexivity.
  - exact sample_lines_returns.
Defined.
